(** * Structured-identifier recognizers: a shallow embedding

    The recognizers of [presidio_analyzer/predefined_recognizers] are
    Python classes deriving from Presidio's [PatternRecognizer].  Each one
    overrides [analyze]: it calls the base class (regular-expression
    matching, which belongs to the Presidio library and to Python's [re]
    module, not to this repository), then validates, rescores, filters or
    merges the returned [RecognizerResult] objects.

    The embedding follows the Python text function by function:
    - a Python [str] is a list of characters ([str]); only ASCII text is
      modelled (an accented keyword is kept as its UTF-8 bytes);
    - a Python [int] is a [Z];
    - a Python [float] score is the rational it denotes; every float
      addition and multiplication goes through a rounding function [rnd];
    - a Python exception is the [Raise] branch of the result type [res];
    - the list returned by [super().analyze] is an argument of each
      [analyze]. *)

From Stdlib Require Import ZArith QArith List Ascii String Bool Lia Lqa Permutation.
From stdpp Require Import gmap strings.
Import ListNotations.

Open Scope Z_scope.

(** ** Python values and exceptions *)

Definition str := list ascii.

Definition lit (x : string) : str := list_ascii_of_string x.

Arguments lit : simpl never.

Inductive exn : Type :=
| IndexError
| ValueError
| KeyError.

Inductive res (A : Type) : Type :=
| Ok (a : A)
| Raise (e : exn).

Arguments Ok {A} a.
Arguments Raise {A} e.

Definition bind {A B : Type} (m : res A) (k : A -> res B) : res B :=
  match m with
  | Ok a => k a
  | Raise e => Raise e
  end.

Notation "'let*' x ':=' m 'in' k" := (bind m (fun x => k))
  (at level 10, x name, m at level 100, k at level 200).

(** [try: ... except ValueError: return d] *)
Definition except_ValueError {A : Type} (m : res A) (d : A) : res A :=
  match m with
  | Raise ValueError => Ok d
  | other => other
  end.

(** A [for] loop whose body may raise. *)
Fixpoint for_each {A St : Type} (body : St -> A -> res St) (st : St) (l : list A) : res St :=
  match l with
  | [] => Ok st
  | x :: rest => let* st' := body st x in for_each body st' rest
  end.

(** A list comprehension whose element expression may raise. *)
Fixpoint map_res {A B : Type} (f : A -> res B) (l : list A) : res (list B) :=
  match l with
  | [] => Ok []
  | x :: rest => let* y := f x in let* ys := map_res f rest in Ok (y :: ys)
  end.

(** ** Characters *)

Definition ord (c : ascii) : Z := Z.of_N (N_of_ascii c).

Definition chr (n : Z) : ascii := ascii_of_N (Z.to_N n).

Definition between (lo hi : Z) (c : ascii) : bool :=
  (lo <=? ord c) && (ord c <=? hi).

(** [c.isdigit()], [\d] *)
Definition isdigit_char (c : ascii) : bool := between 48 57 c.

Definition isupper_char (c : ascii) : bool := between 65 90 c.

Definition islower_char (c : ascii) : bool := between 97 122 c.

(** [c.isalpha()] *)
Definition isalpha_char (c : ascii) : bool := isupper_char c || islower_char c.

(** [\s], and the white space [int] and [str.strip] discard *)
Definition isspace_char (c : ascii) : bool :=
  between 9 13 c || between 28 32 c.

Definition lower_char (c : ascii) : ascii :=
  if isupper_char c then chr (ord c + 32) else c.

Definition eqb_char (a b : ascii) : bool := Ascii.eqb a b.

(** ** Strings *)

Definition len {A : Type} (l : list A) : Z := Z.of_nat (length l).

Definition lower (t : str) : str := map lower_char t.

Fixpoint eqb_str (a b : str) : bool :=
  match a, b with
  | [], [] => true
  | x :: a', y :: b' => eqb_char x y && eqb_str a' b'
  | _, _ => false
  end.

Fixpoint startswith (p t : str) : bool :=
  match p, t with
  | [], _ => true
  | x :: p', y :: t' => eqb_char x y && startswith p' t'
  | _ :: _, [] => false
  end.

(** [p in t] on strings *)
Fixpoint contains (p t : str) : bool :=
  startswith p t ||
  match t with
  | [] => false
  | _ :: t' => contains p t'
  end.

(** [any(f(k) for k in ks)] *)
Definition any {A : Type} (f : A -> bool) (ks : list A) : bool := existsb f ks.

(** [s.isdigit()]: all characters are digits and there is at least one *)
Definition isdigit (t : str) : bool :=
  match t with
  | [] => false
  | _ => forallb isdigit_char t
  end.

(** [re.sub(cls, "", t)] for a one-character class [cls] *)
Definition re_sub_class (cls : ascii -> bool) (t : str) : str :=
  List.filter (fun c => negb (cls c)) t.

(** An index of a slice, clamped as Python does. *)
Definition clamp (n i : Z) : Z :=
  if i <? 0 then Z.max 0 (i + n) else Z.min i n.

(** [l[a:b]] *)
Definition slice {A : Type} (l : list A) (a b : Z) : list A :=
  let a' := clamp (len l) a in
  let b' := clamp (len l) b in
  firstn (Z.to_nat (b' - a')) (skipn (Z.to_nat a') l).

(** [l[a:]] *)
Definition slice_from {A : Type} (l : list A) (a : Z) : list A :=
  skipn (Z.to_nat (clamp (len l) a)) l.

(** [l[:b]] *)
Definition slice_to {A : Type} (l : list A) (b : Z) : list A :=
  firstn (Z.to_nat (clamp (len l) b)) l.

(** [l[i]] *)
Definition index {A : Type} (l : list A) (i : Z) : res A :=
  let j := if i <? 0 then i + len l else i in
  if j <? 0 then Raise IndexError
  else match nth_error l (Z.to_nat j) with
       | Some x => Ok x
       | None => Raise IndexError
       end.

(** ** [int(...)] *)

Definition digit_val (c : ascii) : Z := ord c - 48.

Fixpoint lstrip (t : str) : str :=
  match t with
  | c :: t' => if isspace_char c then lstrip t' else t
  | [] => []
  end.

Definition strip (t : str) : str := rev (lstrip (rev (lstrip t))).

(** Decimal digits, single underscores allowed between two digits. *)
Fixpoint int_digits (acc : Z) (after_digit : bool) (t : str) : option Z :=
  match t with
  | [] => if after_digit then Some acc else None
  | c :: t' =>
      if isdigit_char c then int_digits (acc * 10 + digit_val c) true t'
      else if eqb_char c "_" then
             (if after_digit then int_digits acc false t' else None)
      else None
  end.

(** [int(t)] for a string [t] *)
Definition int (t : str) : res Z :=
  let body := strip t in
  let parsed :=
    match body with
    | c :: body' =>
        if eqb_char c "-" then option_map Z.opp (int_digits 0 false body')
        else if eqb_char c "+" then int_digits 0 false body'
        else int_digits 0 false body
    | [] => None
    end in
  match parsed with
  | Some n => Ok n
  | None => Raise ValueError
  end.

(** [int(c)] for one character [c] of a string *)
Definition int_char (c : ascii) : res Z := int [c].

(** [int(c, 36)] for one character [c] *)
Definition int36_char (c : ascii) : res Z :=
  if isdigit_char c then Ok (digit_val c)
  else if isupper_char c then Ok (ord c - 55)
  else if islower_char c then Ok (ord c - 87)
  else Raise ValueError.

(** [str(n)] for [n >= 0], most significant digit first *)
Fixpoint str_of_nat_aux (fuel : nat) (n : Z) (acc : str) : str :=
  match fuel with
  | O => acc
  | S fuel' =>
      let acc' := chr (48 + n mod 10) :: acc in
      if n <? 10 then acc' else str_of_nat_aux fuel' (n / 10) acc'
  end.

Definition str_of_int (n : Z) : str :=
  if n <? 0 then "-"%char :: str_of_nat_aux (S (Z.to_nat (- n))) (- n) []
  else str_of_nat_aux (S (Z.to_nat n)) n [].

(** [sum(l)] *)
Definition sum (l : list Z) : Z := fold_left Z.add l 0.

(** ** Scores

    A score is a Python float.  It is modelled by the rational number it
    denotes.  [rnd] is the rounding of the float format: a float literal
    [0.3] denotes [rnd (3 # 10)], and [a + b], [a * b] denote the rounded
    exact result.  Comparisons of floats are exact. *)

Definition fadd (rnd : Q -> Q) (a b : Q) : Q := rnd (a + b)%Q.

Definition fmul (rnd : Q -> Q) (a b : Q) : Q := rnd (a * b)%Q.

Definition Qltb (a b : Q) : bool := negb (Qle_bool b a).

(** [min(a, b)]: Python returns [b] only when [b < a]. *)
Definition fmin (a b : Q) : Q := if Qltb b a then b else a.

(** What the results below need of a rounding function: it is monotone
    and represents 0 and 1 exactly. *)
Record rounding (rnd : Q -> Q) : Prop := {
  rnd_mono : forall a b : Q, (a <= b)%Q -> (rnd a <= rnd b)%Q;
  rnd_0 : (rnd 0 == 0)%Q;
  rnd_1 : (rnd 1 == 1)%Q
}.

(** ** [RecognizerResult] *)

Record RecognizerResult : Type := mkResult {
  entity_type : str;
  start : Z;
  end_ : Z;
  score : Q
}.

Definition set_score (r : RecognizerResult) (q : Q) : RecognizerResult :=
  mkResult (entity_type r) (start r) (end_ r) q.

(** [text[result.start:result.end]] *)
Definition matched_text (text : str) (r : RecognizerResult) : str :=
  slice text (start r) (end_ r).

(** ** Italy_fiscal_code_recognizer.py *)

Module ItalyFiscalCodeRecognizer.

Definition CONTEXT : list str :=
  [lit "codice fiscale"; lit "fiscal code"; lit "italian tax code";
   lit "italy personal code"].

Definition letters : str := lit "ABCDEFGHIJKLMNOPQRSTUVWXYZ".

Definition digits : str := lit "0123456789".

Definition ODD_VALUES : gmap ascii Z :=
  list_to_map (zip digits [1; 0; 5; 7; 9; 13; 15; 17; 19; 21])
  ∪ list_to_map
      (zip letters
         [1; 0; 5; 7; 9; 13; 15; 17; 19; 21; 2; 4; 18; 20; 11; 3; 6; 8;
          12; 14; 16; 10; 22; 25; 24; 23]).

Definition EVEN_VALUES : gmap ascii Z :=
  list_to_map (zip digits (map Z.of_nat (seq 0 10)))
  ∪ list_to_map (zip letters (map Z.of_nat (seq 0 26))).

(** [d[k]] on a dict *)
Definition getitem (d : gmap ascii Z) (k : ascii) : res Z :=
  match d !! k with
  | Some v => Ok v
  | None => Raise KeyError
  end.

(** The loop over [enumerate(code[:-1])]; the state is [(i, checksum_sum)]. *)
Definition checksum_step (st : Z * Z) (char : ascii) : res (Z * Z) :=
  let '(i, checksum_sum) := st in
  let* v := (if i mod 2 =? 0 then getitem ODD_VALUES char
             else getitem EVEN_VALUES char) in
  Ok (i + 1, checksum_sum + v).

Definition _validate_checksum (code : str) : res bool :=
  if negb (len code =? 16) then Ok false
  else
    let* st := for_each checksum_step (0, 0) (slice_to code (-1)) in
    let checksum_char := chr (snd st mod 26 + ord "A") in
    let* last := index code (-1) in
    Ok (eqb_char checksum_char last).

(** [[^A-Z0-9]] *)
Definition not_upper_alnum (c : ascii) : bool :=
  negb (isupper_char c || isdigit_char c).

Definition context_found (text : str) : bool :=
  any (fun keyword => contains (lower keyword) (lower text)) CONTEXT.

Definition analyze_one (rnd : Q -> Q) (text : str) (result : RecognizerResult)
  : res RecognizerResult :=
  let code := re_sub_class not_upper_alnum (entity_type result) in
  let* valid := _validate_checksum code in
  let result := set_score result (if valid then 1 else 0) in
  Ok (if context_found text
      then set_score result (fmin (fadd rnd (score result) (rnd (3 # 10))) 1)
      else result).

(** [results] is what [super().analyze(text, entities, nlp_artifacts)]
    returned. *)
Definition analyze (rnd : Q -> Q) (text : str) (results : list RecognizerResult)
  : res (list RecognizerResult) :=
  map_res (analyze_one rnd text) results.

End ItalyFiscalCodeRecognizer.

(** ** eu_iban_numbers_recognizer.py *)

Module EU_IBANRecognizer.

(** [str(int(char, 36)) if char.isalpha() else char] *)
Definition numeric_of_char (char : ascii) : res str :=
  if isalpha_char char
  then let* v := int36_char char in Ok (str_of_int v)
  else Ok [char].

Definition _is_valid_checksum (iban : str) : res bool :=
  let rearranged_iban := slice_from iban 4 ++ slice_to iban 4 in
  let* pieces := map_res numeric_of_char rearranged_iban in
  let numeric_iban := concat pieces in
  except_ValueError
    (let* n := int numeric_iban in Ok (n mod 97 =? 1))
    false.

Definition analyze_one (text : str) (result : RecognizerResult)
  : res RecognizerResult :=
  let iban_number := matched_text text result in
  let cleaned_iban := re_sub_class isspace_char iban_number in
  let* valid := _is_valid_checksum cleaned_iban in
  Ok (set_score result (if valid then 1 else 0)).

Definition analyze (text : str) (results : list RecognizerResult)
  : res (list RecognizerResult) :=
  map_res (analyze_one text) results.

End EU_IBANRecognizer.

(** ** australia_bank_account_numbers_recognizer.py *)

Module AustraliaBankAccountRecognizer.

Definition KNOWN_BSB_NUMBERS : gset str :=
  list_to_set
  [
    lit "012-785"; lit "012-911"; lit "013-961"; lit "016-936";
    lit "016-985"; lit "032-139"; lit "033-141"; lit "035-825";
    lit "062-136"; lit "062-707"; lit "062-904"; lit "064-159";
    lit "085-645"; lit "087-600"; lit "105-069"; lit "105-083";
    lit "105-110"; lit "105-133"; lit "105-141"; lit "105-146";
    lit "105-152"; lit "257-019"; lit "257-028"; lit "257-037";
    lit "257-046"; lit "257-055"; lit "257-064"; lit "257-073";
    lit "257-082"; lit "257-091"; lit "257-100"; lit "257-109";
    lit "257-118"; lit "257-127"; lit "257-136"; lit "257-145";
    lit "257-154"; lit "257-163"; lit "257-172"; lit "257-181";
    lit "257-190"; lit "257-199"; lit "257-208"; lit "257-217";
    lit "257-235"; lit "257-244"; lit "257-253"; lit "257-262";
    lit "257-271"; lit "257-280"; lit "257-289"; lit "257-298";
    lit "482-158"; lit "482-160"; lit "484-095"; lit "484-113";
    lit "484-121"; lit "484-122"; lit "484-123"; lit "484-129";
    lit "484-133"; lit "484-191"; lit "484-192"; lit "484-193";
    lit "484-194"; lit "484-482"; lit "484-552"; lit "484-799";
    lit "484-888"; lit "484-911"; lit "484-915"; lit "732-139";
    lit "733-141"; lit "762-136"; lit "762-707"; lit "762-904";
    lit "764-159"; lit "802-887"; lit "803-110"; lit "803-136";
    lit "803-420"; lit "803-421"; lit "807-125"; lit "807-126";
    lit "808-269"; lit "808-270"; lit "808-271"; lit "808-272";
    lit "808-273"; lit "808-274"; lit "808-275"; lit "808-276";
    lit "808-277"
  ].

Definition CONTEXT : list str :=
  [lit "bank account"; lit "account number";
   lit "Australia bank account number"; lit "Acct Num";
   lit "swift bank code"; lit "correspondent bank"; lit "base currency";
   lit "Australia bank account"; lit "account holder ";
   lit "bank address"; lit "information account"; lit "fund transfers";
   lit "bank charges"; lit "bank details"; lit "banking information";
   lit "account number with bsb"; lit "acc no. with bsb code"].

Definition NEGATIVE_CONTEXT : list str :=
  [lit "driver"; lit "license"; lit "identification"; lit "permit";
   lit "licence"].

Definition _match_known_bsb (rnd : Q -> Q) (bsb_number : str) : Q :=
  if bool_decide (bsb_number ∈ KNOWN_BSB_NUMBERS) then 1 else rnd (5 # 10).

(** The first [n] characters of [t] exist and are digits. *)
Fixpoint digits_prefix (n : nat) (t : str) : bool :=
  match n, t with
  | O, _ => true
  | S n', c :: t' => isdigit_char c && digits_prefix n' t'
  | S _, [] => false
  end.

(** A match of [(\d{3}-\d{3})-(\d{6,10})] at the head of [t]: group 1. *)
Definition bsb_account_at (t : str) : option str :=
  if digits_prefix 3 t
     && startswith (lit "-") (skipn 3 t)
     && digits_prefix 3 (skipn 4 t)
     && startswith (lit "-") (skipn 7 t)
     && digits_prefix 6 (skipn 8 t)
  then Some (firstn 7 t)
  else None.

(** [re.search(r"(\d{3}-\d{3})-(\d{6,10})", t)]: group 1 of the leftmost
    match. *)
Fixpoint re_search_bsb_account (t : str) : option str :=
  match bsb_account_at t with
  | Some g => Some g
  | None =>
      match t with
      | [] => None
      | _ :: t' => re_search_bsb_account t'
      end
  end.

Definition context_stage (rnd : Q -> Q) (text : str) (result : RecognizerResult)
  : RecognizerResult :=
  if negb (any (fun context_word => contains context_word (lower text)) CONTEXT)
  then set_score result (fmul rnd (score result) (rnd (3 # 10)))
  else result.

Definition negative_context_stage (rnd : Q -> Q) (text : str)
  (result : RecognizerResult) : RecognizerResult :=
  if any (fun neg_context_word => contains neg_context_word (lower text))
       NEGATIVE_CONTEXT
  then set_score result (fmul rnd (score result) (rnd (15 # 100)))
  else result.

Definition bsb_stage (rnd : Q -> Q) (text : str) (result : RecognizerResult)
  : RecognizerResult :=
  if eqb_str (entity_type result) (lit "AUSTRALIA_BANK_ACCOUNT")
  then match re_search_bsb_account (matched_text text result) with
       | Some bsb_number => set_score result (_match_known_bsb rnd bsb_number)
       | None => result
       end
  else result.

Definition rescore (rnd : Q -> Q) (text : str) (result : RecognizerResult)
  : RecognizerResult :=
  bsb_stage rnd text
    (negative_context_stage rnd text (context_stage rnd text result)).

(** The loop body: [updated_results] grows by the results kept. *)
Definition analyze_step (rnd : Q -> Q) (text : str)
  (updated_results : list RecognizerResult) (result : RecognizerResult)
  : list RecognizerResult :=
  let result := rescore rnd text result in
  if Qltb (rnd (3 # 10)) (score result)
  then updated_results ++ [result]
  else updated_results.

Definition analyze (rnd : Q -> Q) (text : str) (results : list RecognizerResult)
  : list RecognizerResult :=
  fold_left (analyze_step rnd text) results [].

End AustraliaBankAccountRecognizer.

(** ** netherlands_national_identification_numbers_recognizer.py *)

Module NetherlandsNationalIDRecognizer.

Definition CONTEXT : list str :=
  [lit "burgerservicenummer"; lit "national identification number";
   lit "bsn"; lit "national ID"; lit "nummer"; lit "ID number";
   lit "identificatienummer"].

(** [range(n)] *)
Definition range (n : nat) : list Z := map Z.of_nat (seq 0 n).

(** The loop body; the state is [(total_sum, multiplier)]. *)
Definition checksum_step (national_id : str) (st : Z * Z) (i : Z)
  : res (Z * Z) :=
  let '(total_sum, multiplier) := st in
  let* c := index national_id i in
  let* digit := int_char c in
  Ok (total_sum + digit * multiplier, multiplier - 1).

Definition _is_valid_checksum (national_id : str) : res bool :=
  let* st := for_each (checksum_step national_id) (0, 9) (range 9) in
  Ok (fst st mod 11 =? 0).

Definition analyze_one (rnd : Q -> Q) (text : str) (result : RecognizerResult)
  : res RecognizerResult :=
  let national_id := matched_text text result in
  let* valid := _is_valid_checksum national_id in
  Ok (if valid
      then if any (fun keyword => contains keyword (lower text)) CONTEXT
           then set_score result 1
           else set_score result (rnd (7 # 10))
      else set_score result 0).

Definition analyze (rnd : Q -> Q) (text : str) (results : list RecognizerResult)
  : res (list RecognizerResult) :=
  map_res (analyze_one rnd text) results.

End NetherlandsNationalIDRecognizer.

(** ** netherland_vat_numbers_recognizer.py: the guarded sibling of the
    check above *)

Module NetherlandsVATRecognizer.

(** The loop over [enumerate(digits)]; the state is [(index, total_sum)]. *)
Definition checksum_step (st : Z * Z) (digit : ascii) : res (Z * Z) :=
  let '(index, total_sum) := st in
  let* d := int_char digit in
  Ok (index + 1, total_sum + d * (9 - index)).

Definition validate_checksum (vat_number : str) : res bool :=
  if negb (len vat_number =? 14) then Ok false
  else
    let* c := index vat_number 9 in
    if negb (eqb_char c "B") then Ok false
    else
      let digits := slice_to vat_number 9 in
      if negb (isdigit digits) then Ok false
      else
        let* st := for_each checksum_step (0, 0) digits in
        Ok (snd st mod 11 =? 0).

Definition CONTEXT_KEYWORDS : list str :=
  [lit "btw"; lit "vat number"; lit "vat id"; lit "Netherlands VAT";
   lit "BTW-nummer"; lit "btw-id"; lit "btw nummer";
   lit "btw identificatienummer"].

Definition enhance_confidence (rnd : Q -> Q) (text : str)
  (pattern_result : RecognizerResult) : RecognizerResult :=
  let context_window := 50 in
  let '(start, end_) := (start pattern_result, end_ pattern_result) in
  let surrounding_text :=
    lower (slice text (Z.max 0 (start - context_window))
             (Z.min (len text) (end_ + context_window))) in
  let context_present :=
    any (fun keyword => contains (lower keyword) surrounding_text)
      CONTEXT_KEYWORDS in
  if context_present
  then set_score pattern_result (rnd (9 # 10))
  else set_score pattern_result (rnd (5 # 10)).

(** The loop body; the state is [enhanced_results]. *)
Definition analyze_step (rnd : Q -> Q) (text : str)
  (enhanced_results : list RecognizerResult) (result : RecognizerResult)
  : res (list RecognizerResult) :=
  let vat_number := matched_text text result in
  let* valid := validate_checksum vat_number in
  let result := if valid then enhance_confidence rnd text result
                else set_score result 0 in
  Ok (enhanced_results ++ [result]).

Definition analyze (rnd : Q -> Q) (text : str) (results : list RecognizerResult)
  : res (list RecognizerResult) :=
  for_each (analyze_step rnd text) [] results.

End NetherlandsVATRecognizer.

(** ** sweden_national_Identification_numbers_recognizer.py *)

Module SwedenNationalIDRecognizer.

(** The loop over [reversed(national_id)]; the state is
    [(sum_, alternate)]. *)
Definition checksum_step (st : Z * bool) (digit : ascii) : res (Z * bool) :=
  let '(sum_, alternate) := st in
  let* num := int_char digit in
  let num := if alternate
             then (let num := num * 2 in if num >? 9 then num - 9 else num)
             else num in
  Ok (sum_ + num, negb alternate).

Definition _is_valid_checksum (national_id : str) : res bool :=
  let national_id := slice_from national_id (-10) in
  let* st := for_each checksum_step (0, false) (rev national_id) in
  Ok (fst st mod 10 =? 0).

Definition CONTEXT : list str :=
  [lit "id no"; lit "id number"; lit "id#"; lit "identification no";
   lit "identification number"; lit "identifikationsnumret#";
   lit "identifikationsnumret"; lit "identitetshandling";
   lit "identity document"; lit "identity no"; lit "identity number";
   lit "id-nummer"; lit "personal id"; lit "personnummer#";
   lit "personnummer"; lit "skatteidentifikationsnummer"].

(** [[-+]] *)
Definition dash_or_plus (c : ascii) : bool :=
  eqb_char c "-" || eqb_char c "+".

Definition analyze_one (rnd : Q -> Q) (text : str) (result : RecognizerResult)
  : res RecognizerResult :=
  let national_id := matched_text text result in
  let cleaned_national_id := re_sub_class dash_or_plus national_id in
  let* valid := _is_valid_checksum cleaned_national_id in
  Ok (if valid
      then if any (fun keyword => contains keyword (lower text)) CONTEXT
           then set_score result 1
           else set_score result (rnd (7 # 10))
      else set_score result 0).

Definition analyze (rnd : Q -> Q) (text : str) (results : list RecognizerResult)
  : res (list RecognizerResult) :=
  map_res (analyze_one rnd text) results.

End SwedenNationalIDRecognizer.

(** ** spain_national_identification_numbers_recognizer.py *)

Module SpainDNIRecognizer.

Definition CONTEXT : list str :=
  [lit "DNI"; lit "Documento Nacional de Identidad"; lit "national ID";
   lit "identificación nacional"; lit "número de identificación";
   lit "identification number"; lit "national identification"].

Definition valid_letters : str := lit "TRWAGMYFPDXBNJZSQVHLCKE".

Definition _validate_dni_checksum (dni : str) : res bool :=
  let dni_number := slice_to dni (-1) in
  let* dni_letter := index dni (-1) in
  except_ValueError
    (let* n := int dni_number in
     let mod_value := n mod 23 in
     let* letter := index valid_letters mod_value in
     Ok (eqb_char letter dni_letter))
    false.

Definition _adjust_score_based_on_context (rnd : Q -> Q) (text : str)
  (result : RecognizerResult) : Q :=
  if any (fun keyword => contains (lower keyword) (lower text)) CONTEXT
  then fmin (fadd rnd (score result) (rnd (3 # 10))) 1
  else score result.

Definition analyze_one (rnd : Q -> Q) (text : str) (result : RecognizerResult)
  : res RecognizerResult :=
  let dni := matched_text text result in
  let* valid := _validate_dni_checksum dni in
  Ok (if valid
      then set_score result (_adjust_score_based_on_context rnd text result)
      else set_score result 0).

Definition analyze (rnd : Q -> Q) (text : str) (results : list RecognizerResult)
  : res (list RecognizerResult) :=
  map_res (analyze_one rnd text) results.

End SpainDNIRecognizer.

(** ** canada_driving_license_recognizer.py *)

Module CanadaDriversLicenceRecognizer.

(** [(fr.start <= result.start < fr.end) or
     (result.start <= fr.start < result.end)] *)
Definition overlaps (fr result : RecognizerResult) : bool :=
  ((start fr <=? start result) && (start result <? end_ fr))
  || ((start result <=? start fr) && (start fr <? end_ result)).

(** The assignments to [fr] under [if result.score > fr.score]. *)
Definition take_over (fr result : RecognizerResult) : RecognizerResult :=
  if Qltb (score fr) (score result)
  then mkResult (entity_type fr) (start result) (end_ result) (score result)
  else fr.

(** The inner loop over [filtered_results]; the state is [(overlap, the
    entries of filtered_results visited so far)].  The entries are
    objects updated in place; an entry is never the [result] at hand,
    which comes later in [results]. *)
Definition inner_step (result : RecognizerResult)
  (st : bool * list RecognizerResult) (fr : RecognizerResult)
  : bool * list RecognizerResult :=
  let '(overlap, visited) := st in
  if overlaps fr result
  then (true, visited ++ [take_over fr result])
  else (overlap, visited ++ [fr]).

(** The outer loop body. *)
Definition outer_step (filtered_results : list RecognizerResult)
  (result : RecognizerResult) : list RecognizerResult :=
  let '(overlap, filtered_results) :=
    fold_left (inner_step result) filtered_results (false, []) in
  if negb overlap then filtered_results ++ [result] else filtered_results.

Definition analyze (results : list RecognizerResult) : list RecognizerResult :=
  fold_left outer_step results [].

End CanadaDriversLicenceRecognizer.

(** ** all_credit_card_number_recognizer.py *)

Module AllCreditCardNumberRecognizer.

(** [[\s-]] *)
Definition space_or_dash (c : ascii) : bool :=
  isspace_char c || eqb_char c "-".

(** The loop over [range(num_digits)]; the state is [sum_digits]. *)
Definition luhn_step (card_number : str) (odd_even : Z) (sum_digits : Z)
  (count : Z) : res Z :=
  let* c := index card_number count in
  let* digit := int_char c in
  let digit := if Z.lxor (Z.land count 1) odd_even =? 0
               then digit * 2 else digit in
  let digit := if digit >? 9 then digit - 9 else digit in
  Ok (sum_digits + digit).

Definition _is_valid_credit_card (card_number : str) : res bool :=
  let card_number := re_sub_class space_or_dash card_number in
  if negb (isdigit card_number) then Ok false
  else
    let num_digits := length card_number in
    let odd_even := Z.land (Z.of_nat num_digits) 1 in
    let* sum_digits :=
      for_each (luhn_step card_number odd_even) 0
        (map Z.of_nat (seq 0 num_digits)) in
    Ok (sum_digits mod 10 =? 0).

(** Presidio's [Pattern(name, regex, score)] *)
Record Pattern : Type := mkPattern {
  pattern_name : str;
  pattern_regex : str;
  pattern_score : Q
}.

Definition PATTERNS (rnd : Q -> Q) : list (str * list Pattern) :=
  [(lit "American Express",
     [
      mkPattern (lit "American Express (high)")
        (lit "\b3[47]\d{2} \d{6} \d{5}\b") 1;
      mkPattern (lit "American Express (high)")
        (lit "\b3[47]\d{2}-\d{6}-\d{5}\b") 1;
      mkPattern (lit "American Express (high)")
        (lit "\b3[47]\d{13}\b") 1;
      mkPattern (lit "American Express (medium_high)")
        (lit "\b3[47]\d{2} \d{6} \d{5}\b") (rnd (8 # 10));
      mkPattern (lit "American Express (medium)")
        (lit "\b3[47]\d{2} \d{6} \d{5}\b") (rnd (6 # 10))
     ]);
   (lit "China UnionPay",
     [
      mkPattern (lit "China UnionPay (high)")
        (lit "\b622\d{13,16}\b") 1;
      mkPattern (lit "China UnionPay (high)")
        (lit "\b603601\d{10}\b") 1;
      mkPattern (lit "China UnionPay (high)")
        (lit "\b603265\d{10}\b") 1;
      mkPattern (lit "China UnionPay (high)")
        (lit "\b621977\d{10}\b") 1;
      mkPattern (lit "China UnionPay (high)")
        (lit "\b603708\d{10}\b") 1;
      mkPattern (lit "China UnionPay (high)")
        (lit "\b602969\d{10}\b") 1;
      mkPattern (lit "China UnionPay (high)")
        (lit "\b601428\d{10}\b") 1;
      mkPattern (lit "China UnionPay (high)")
        (lit "\b603367\d{10}\b") 1;
      mkPattern (lit "China UnionPay (high)")
        (lit "\b603694\d{10}\b") 1
     ]);
   (lit "Diner's Club",
     [
      mkPattern (lit "Diner's Club (high)")
        (lit "\b30[0-5]\d-\d{6}-\d{4}\b") 1;
      mkPattern (lit "Diner's Club (high)")
        (lit "\b30[0-5]\d \d{6} \d{4}\b") 1;
      mkPattern (lit "Diner's Club (high)")
        (lit "\b30[0-5]\d{11}\b") 1;
      mkPattern (lit "Diner's Club (high)")
        (lit "\b3[689]\d{2}-\d{6}-\d{4}\b") 1;
      mkPattern (lit "Diner's Club (high)")
        (lit "\b3[689]\d{2} \d{6} \d{4}\b") 1;
      mkPattern (lit "Diner's Club (high)")
        (lit "\b3[689]\d{12}\b") 1
     ]);
   (lit "Discover",
     [
      mkPattern (lit "Discover (high)")
        (lit "\b6011-\d{4}-\d{4}-\d{4}\b") 1;
      mkPattern (lit "Discover (high)")
        (lit "\b6011 \d{4} \d{4} \d{4}\b") 1;
      mkPattern (lit "Discover (high)")
        (lit "\b6011\d{12}\b") 1;
      mkPattern (lit "Discover (high)")
        (lit "\b64[4-9]\d-\d{4}-\d{4}-\d{4}\b") 1;
      mkPattern (lit "Discover (high)")
        (lit "\b64[4-9]\d \d{4} \d{4} \d{4}\b") 1;
      mkPattern (lit "Discover (high)")
        (lit "\b64[4-9]\d{13}\b") 1;
      mkPattern (lit "Discover (high)")
        (lit "\b65\d{2}-\d{4}-\d{4}-\d{4}\b") 1;
      mkPattern (lit "Discover (high)")
        (lit "\b65\d{2} \d{4} \d{4} \d{4}\b") 1;
      mkPattern (lit "Discover (high)")
        (lit "\b65\d{14}\b") 1
     ]);
   (lit "JCB",
     [
      mkPattern (lit "JCB (high)")
        (lit "\b352[89]-\d{4}-\d{4}-\d{4}\b") 1;
      mkPattern (lit "JCB (high)")
        (lit "\b352[89] \d{4} \d{4} \d{4}\b") 1;
      mkPattern (lit "JCB (high)")
        (lit "\b352[89]\d{12}\b") 1;
      mkPattern (lit "JCB (high)")
        (lit "\b35[3-8]\d-\d{4}-\d{4}-\d{4}\b") 1;
      mkPattern (lit "JCB (high)")
        (lit "\b35[3-8]\d \d{4} \d{4} \d{4}\b") 1;
      mkPattern (lit "JCB (high)")
        (lit "\b35[3-8]\d{14}\b") 1
     ]);
   (lit "Kohl's",
     [
      mkPattern (lit "Kohl's (high)")
        (lit "\b(4391|4392|4393|4394|4395|4396|4397|4398|4399)-\d{4}-\d{4}-\d{4}\b") 1;
      mkPattern (lit "Kohl's (high)")
        (lit "\b(4391|4392|4393|4394|4395|4396|4397|4398|4399) \d{4} \d{4} \d{4}\b") 1;
      mkPattern (lit "Kohl's (high)")
        (lit "\b(4391|4392|4393|4394|4395|4396|4397|4398|4399)\d{12}\b") 1
     ]);
   (lit "Mastercard",
     [
      mkPattern (lit "Mastercard (high)")
        (lit "\b5[1-5]\d{4}-\d{4}-\d{4}-\d{4}\b") 1;
      mkPattern (lit "Mastercard (high)")
        (lit "\b5[1-5] \d{4} \d{4} \d{4}\b") 1;
      mkPattern (lit "Mastercard (high)")
        (lit "\b5[1-5]\d{15}\b") 1;
      mkPattern (lit "Mastercard (high)")
        (lit "\b2[2-7]\d{14}\b") 1
     ]);
   (lit "VISA",
     [
      mkPattern (lit "VISA (high)")
        (lit "\b4\d{3}-\d{4}-\d{4}-\d{4}\b") 1;
      mkPattern (lit "VISA (high)")
        (lit "\b4\d{12}\d{4}\b") 1;
      mkPattern (lit "VISA (medium_high)")
        (lit "\b4\d{3} \d{4} \d{4} \d{4}\b") (rnd (8 # 10));
      mkPattern (lit "VISA (medium)")
        (lit "\b4\d{3} \d{4} \d{4}\b") (rnd (6 # 10))
     ])
  ].

Definition IGNORED_PATTERNS : gmap str (list str) :=
  list_to_map
  [(lit "American Express",
     [
      lit "3400([- ]?)000000([- ]?)00009";
      lit "3411([- ]?)111111([- ]?)11111";
      lit "3434([- ]?)343434([- ]?)34343";
      lit "3456([- ]?)789012([- ]?)34564";
      lit "3456([- ]?)400000([- ]?)55123";
      lit "3468([- ]?)276304([- ]?)35344";
      lit "3700([- ]?)000000([ -]?)00002";
      lit "3700([- ]?)002000([ -]?)00000";
      lit "3704([- ]?)072699([ -]?)09809";
      lit "3705([- ]?)560193([ -]?)09221";
      lit "3714([- ]?)496353([ -]?)98431";
      lit "3742([- ]?)000000([ -]?)00004";
      lit "3756([- ]?)400000([ -]?)55123";
      lit "3764([- ]?)622809([ -]?)21451";
      lit "3777([- ]?)527498([ -]?)96404";
      lit "3782([- ]?)822463([ -]?)10005";
      lit "3787([- ]?)344936([ -]?)11827";
      lit "3793([- ]?)123456([ -]?)78901"
     ]);
   (lit "China UnionPay",
     [
      lit "6213([- ]?)145678([- ]?)90123";
      lit "6214([- ]?)500123([- ]?)45678";
      lit "6222([- ]?)000000([- ]?)00000";
      lit "6222([- ]?)000000([- ]?)00001";
      lit "6223([- ]?)040506([- ]?)07080";
      lit "6224([- ]?)060708([- ]?)09010";
      lit "6227([- ]?)890123([- ]?)45678";
      lit "6230([- ]?)111111([- ]?)22222";
      lit "6231([- ]?)233344([- ]?)55555";
      lit "6250([- ]?)987654([- ]?)32100";
      lit "6262([- ]?)222222([- ]?)22222";
      lit "6263([- ]?)111111([- ]?)00000"
     ]);
   (lit "Diner's Club",
     [
      lit "3000([- ]?)000000([- ]?)00004";
      lit "3001([- ]?)111111([- ]?)11111";
      lit "3050([- ]?)000000([- ]?)00000";
      lit "3051([- ]?)555555([- ]?)55555";
      lit "3052([- ]?)999999([- ]?)99999";
      lit "3053([- ]?)123456([- ]?)78901";
      lit "3054([- ]?)000000([- ]?)00000";
      lit "3055([- ]?)654321([- ]?)09876";
      lit "3056([- ]?)789012([- ]?)34567";
      lit "3057([- ]?)890123([- ]?)45678";
      lit "3058([- ]?)678901([- ]?)23456";
      lit "3059([- ]?)456789([- ]?)12345";
      lit "3060([- ]?)543210([- ]?)98765";
      lit "3061([- ]?)234567([- ]?)89012";
      lit "3062([- ]?)789012([- ]?)34567"
     ]);
   (lit "Discover",
     [
      lit "6011([- ]?)0000([- ]?)0000([- ]?)0004";
      lit "6011([- ]?)1111([- ]?)2222([- ]?)3333";
      lit "6011([- ]?)3333([- ]?)4444([- ]?)5555";
      lit "6011([- ]?)6666([- ]?)7777([- ]?)8888";
      lit "6011([- ]?)0000([- ]?)1111([- ]?)2222";
      lit "6011([- ]?)3333([- ]?)4444([- ]?)5555";
      lit "6011([- ]?)6666([- ]?)7777([- ]?)8888";
      lit "6011([- ]?)9999([- ]?)0000([- ]?)1111";
      lit "6011([- ]?)2222([- ]?)3333([- ]?)4444";
      lit "6011([- ]?)5555([- ]?)6666([- ]?)7777";
      lit "6011([- ]?)8888([- ]?)9999([- ]?)0000"
     ]);
   (lit "JCB",
     [
      lit "3528([- ]?)1234([- ]?)5678([- ]?)9012";
      lit "3528([- ]?)2345([- ]?)6789([- ]?)0123";
      lit "3528([- ]?)3456([- ]?)7890([- ]?)1234";
      lit "3528([- ]?)4567([- ]?)8901([- ]?)2345";
      lit "3528([- ]?)5678([- ]?)9012([- ]?)3456";
      lit "3528([- ]?)6789([- ]?)0123([- ]?)4567";
      lit "3528([- ]?)7890([- ]?)1234([- ]?)5678";
      lit "3528([- ]?)8901([- ]?)2345([- ]?)6789";
      lit "3528([- ]?)9012([- ]?)3456([- ]?)7890";
      lit "3530([- ]?)1234([- ]?)5678([- ]?)9012";
      lit "3530([- ]?)2345([- ]?)6789([- ]?)0123";
      lit "3530([- ]?)3456([- ]?)7890([- ]?)1234"
     ]);
   (lit "Kohl's",
     [
      lit "4391([- ]?)0000([- ]?)0000([- ]?)0000";
      lit "4391([- ]?)1234([- ]?)5678([- ]?)9012";
      lit "4391([- ]?)2345([- ]?)6789([- ]?)0123";
      lit "4391([- ]?)3456([- ]?)7890([- ]?)1234";
      lit "4391([- ]?)4567([- ]?)8901([- ]?)2345";
      lit "4391([- ]?)5678([- ]?)9012([- ]?)3456";
      lit "4391([- ]?)6789([- ]?)0123([- ]?)4567";
      lit "4391([- ]?)7890([- ]?)1234([- ]?)5678";
      lit "4391([- ]?)8901([- ]?)2345([- ]?)6789";
      lit "4391([- ]?)9012([- ]?)3456([- ]?)7890"
     ]);
   (lit "Mastercard",
     [
      lit "5111([- ]?)1111([- ]?)1111([- ]?)1111";
      lit "5111([- ]?)2222([- ]?)3333([- ]?)4444";
      lit "5111([- ]?)5555([- ]?)6666([- ]?)7777";
      lit "5111([- ]?)8888([- ]?)9999([- ]?)0000";
      lit "5111([- ]?)1111([- ]?)1111([- ]?)1111";
      lit "5111([- ]?)0000([- ]?)0000([- ]?)0000";
      lit "5111([- ]?)2222([- ]?)2222([- ]?)2222";
      lit "5111([- ]?)3333([- ]?)3333([- ]?)3333";
      lit "5111([- ]?)4444([- ]?)4444([- ]?)4444";
      lit "5111([- ]?)5555([- ]?)5555([- ]?)5555"
     ])
  ].

(** [analyze] and [_is_ignored] run Python's regular-expression engine:
    [finditer regex text] stands for the spans [(match.start(),
    match.end())] of [re.finditer(regex, text)], and [fullmatch regex t]
    for whether [re.fullmatch(regex, t)] finds a match. *)
Section Regex.

Variable finditer : str -> str -> list (Z * Z).

Variable fullmatch : str -> str -> bool.

Definition _is_ignored (card_type matched_text : str) : bool :=
  match IGNORED_PATTERNS !! card_type with
  | Some ignored_patterns =>
      any (fun ignored_pattern => fullmatch ignored_pattern matched_text)
        ignored_patterns
  | None => false
  end.

(** The innermost loop, over the matches of one pattern; the state is
    [results]. *)
Definition match_step (text card_type : str) (pattern : Pattern)
  (results : list RecognizerResult) (m : Z * Z) : res (list RecognizerResult) :=
  let '(start, end_) := m in
  let matched_text := slice text start end_ in
  if negb (_is_ignored card_type matched_text)
  then
    let* valid := _is_valid_credit_card matched_text in
    if valid
    then Ok (results
             ++ [mkResult (lit "CREDIT_CARD") start end_ (pattern_score pattern)])
    else Ok results
  else Ok results.

(** The loop over the patterns of one card type. *)
Definition pattern_step (text card_type : str) (results : list RecognizerResult)
  (pattern : Pattern) : res (list RecognizerResult) :=
  for_each (match_step text card_type pattern) results
    (finditer (pattern_regex pattern) text).

(** The loop over [self.PATTERNS.items()]. *)
Definition card_type_step (text : str) (results : list RecognizerResult)
  (item : str * list Pattern) : res (list RecognizerResult) :=
  let '(card_type, pattern_list) := item in
  for_each (pattern_step text card_type) results pattern_list.

Definition analyze (rnd : Q -> Q) (text : str) : res (list RecognizerResult) :=
  for_each (card_type_step text) [] (PATTERNS rnd).

End Regex.

End AllCreditCardNumberRecognizer.

(** ** [validate_ccn], the same text in cc_track_data_attachments_recognizer.py
    and us_PCI_DSS_recognizer.py *)

Module Luhn.

(** [[int(d) for d in str(n)]] *)
Definition digits_of (n : str) : res (list Z) := map_res int_char n.

(** [l[-1::-2]] *)
Fixpoint every_other {A : Type} (l : list A) : list A :=
  match l with
  | x :: _ :: rest => x :: every_other rest
  | other => other
  end.

Definition from_last_by_2 {A : Type} (l : list A) : list A :=
  every_other (rev l).

(** [l[-2::-2]] *)
Definition from_second_last_by_2 {A : Type} (l : list A) : list A :=
  every_other (tl (rev l)).

(** The loop over [even_digits]; the state is [checksum]. *)
Definition even_step (checksum : Z) (d : Z) : res Z :=
  let* ds := digits_of (str_of_int (d * 2)) in
  Ok (checksum + sum ds).

Definition luhn_checksum (card_number : str) : res bool :=
  let* digits := digits_of card_number in
  let odd_digits := from_last_by_2 digits in
  let even_digits := from_second_last_by_2 digits in
  let* checksum := for_each even_step (sum odd_digits) even_digits in
  Ok (checksum mod 10 =? 0).

(** [\D] *)
Definition non_digit (c : ascii) : bool := negb (isdigit_char c).

Definition validate_ccn (ccn : str) : res bool :=
  let cleaned_ccn := re_sub_class non_digit ccn in
  luhn_checksum cleaned_ccn.

End Luhn.

(** ** cc_numbers_Issuer_recognizer.py *)

Module CreditCardIssuerRecognizer.

(** [validate_result] has the text of [validate_ccn]. *)
Definition validate_result (pattern_text : str) : res bool :=
  let card_number := re_sub_class Luhn.non_digit pattern_text in
  Luhn.luhn_checksum card_number.

(** The loop body; the state is [valid_results]. *)
Definition analyze_step (text : str) (valid_results : list RecognizerResult)
  (result : RecognizerResult) : res (list RecognizerResult) :=
  let matched_text := matched_text text result in
  let* valid := validate_result matched_text in
  if valid then Ok (valid_results ++ [result]) else Ok valid_results.

Definition analyze (text : str) (results : list RecognizerResult)
  : res (list RecognizerResult) :=
  for_each (analyze_step text) [] results.

End CreditCardIssuerRecognizer.

(** ** cc_track_data_attachments_recognizer.py *)

(** A span of the NLP engine's [nlp_artifacts.entities]. *)
Record Entity : Type := mkEntity {
  label_ : str;
  start_char : Z;
  end_char : Z
}.

Record NlpArtifacts : Type := mkNlpArtifacts {
  entities : list Entity
}.

Module CCTrackDataRecognizer.

Definition validate_ccn : str -> res bool := Luhn.validate_ccn.

Definition custom_validate_result (result : RecognizerResult) (text : str)
  : res bool :=
  let matched_text := matched_text text result in
  if eqb_str (entity_type result) (lit "CREDIT_CARD_TRACK_DATA")
  then validate_ccn matched_text
  else Ok true.

(** The loop over [nlp_artifacts.entities]: [results] grows by one
    result per ["PERSON"] entity. *)
Definition person_step (rnd : Q -> Q) (results : list RecognizerResult)
  (entity : Entity) : list RecognizerResult :=
  if eqb_str (label_ entity) (lit "PERSON")
  then results
       ++ [mkResult (lit "PERSON") (start_char entity) (end_char entity)
             (rnd (85 # 100))]
  else results.

Definition add_persons (rnd : Q -> Q) (results : list RecognizerResult)
  (nlp_artifacts : option NlpArtifacts) : list RecognizerResult :=
  match nlp_artifacts with
  | Some artifacts =>
      match entities artifacts with
      | [] => results
      | es => fold_left (person_step rnd) es results
      end
  | None => results
  end.

(** [x in ["CREDIT_CARD_TRACK_DATA", "PERSON"]] *)
Definition is_track_data_hit (result : RecognizerResult) : bool :=
  eqb_str (entity_type result) (lit "CREDIT_CARD_TRACK_DATA")
  || eqb_str (entity_type result) (lit "PERSON").

(** The validation loop; the state is [(valid_results, track_data_count)]. *)
Definition count_step (text : str) (st : list RecognizerResult * Z)
  (result : RecognizerResult) : res (list RecognizerResult * Z) :=
  let '(valid_results, track_data_count) := st in
  let* valid := custom_validate_result result text in
  if valid
  then Ok (valid_results ++ [result],
           if is_track_data_hit result
           then track_data_count + 1 else track_data_count)
  else Ok (valid_results, track_data_count).

Definition analyze (rnd : Q -> Q) (text : str) (results : list RecognizerResult)
  (nlp_artifacts : option NlpArtifacts) : res (list RecognizerResult) :=
  let results := add_persons rnd results nlp_artifacts in
  let* st := for_each (count_step text) ([], 0) results in
  let '(valid_results, track_data_count) := st in
  if track_data_count >=? 3 then Ok valid_results else Ok [].

End CCTrackDataRecognizer.

(** ** us_PCI_DSS_recognizer.py *)

Module PCI_DSS_CreditCardAndTrackDataRecognizer.

Definition validate_ccn : str -> res bool := Luhn.validate_ccn.

(** The loop over the matches of [TRACK_DATA_PATTERN]; a match is given
    by [(match.start(1), match.end(1))]. *)
Definition track_step (rnd : Q -> Q) (text : str)
  (track_data_results : list RecognizerResult) (m : Z * Z)
  : res (list RecognizerResult) :=
  let '(start, end_) := m in
  let credit_card_number := slice text start end_ in
  let* valid := validate_ccn credit_card_number in
  if valid
  then Ok (track_data_results
           ++ [mkResult (lit "CREDIT_CARD_TRACK_DATA") start end_
                 (rnd (9 # 10))])
  else Ok track_data_results.

(** [matches] is what [re.finditer(self.TRACK_DATA_PATTERN, text)] yields. *)
Definition detect_track_data (rnd : Q -> Q) (text : str) (matches : list (Z * Z))
  : res (list RecognizerResult) :=
  for_each (track_step rnd text) [] matches.

(** The loop body; the state is [(unique_results, seen_positions)]. *)
Definition unique_step (st : list RecognizerResult * gset (Z * Z))
  (result : RecognizerResult) : list RecognizerResult * gset (Z * Z) :=
  let '(unique_results, seen_positions) := st in
  let position_key := (start result, end_ result) in
  if bool_decide (position_key ∈ seen_positions)
  then (unique_results, seen_positions)
  else (unique_results ++ [result], {[position_key]} ∪ seen_positions).

Definition filter_unique_results (results : list RecognizerResult)
  : list RecognizerResult :=
  fst (fold_left unique_step results ([], ∅)).

Definition analyze (rnd : Q -> Q) (text : str) (results : list RecognizerResult)
  (matches : list (Z * Z)) : res (list RecognizerResult) :=
  let* track_data_results := detect_track_data rnd text matches in
  let results := match track_data_results with
                 | [] => results
                 | _ => results ++ track_data_results
                 end in
  let unique_results := filter_unique_results results in
  match unique_results with
  | first :: _ => Ok [first]
  | [] => Ok []
  end.

End PCI_DSS_CreditCardAndTrackDataRecognizer.

(** * Reference definitions

    What the properties below are stated against. *)

(** The number a string of digits denotes, most significant digit first. *)
Fixpoint decimal_value (ds : str) : Z :=
  match ds with
  | [] => 0
  | c :: rest => digit_val c * 10 ^ len rest + decimal_value rest
  end.

(** The Dutch weighted sum: the digits times the weights [w], [w - 1], ... *)
Fixpoint weighted_sum (w : Z) (ds : str) : Z :=
  match ds with
  | [] => 0
  | c :: rest => digit_val c * w + weighted_sum (w - 1) rest
  end.

(** The Luhn sum of a list of digits given from the right: every second
    digit is doubled, and 9 is subtracted from a product above 9. *)
Definition luhn_double (d : Z) : Z :=
  let p := 2 * d in if p >? 9 then p - 9 else p.

Fixpoint luhn_from_right (second : bool) (ds : list Z) : Z :=
  match ds with
  | [] => 0
  | d :: rest =>
      (if second then luhn_double d else d) + luhn_from_right (negb second) rest
  end.

Definition luhn_sum (t : str) : Z :=
  luhn_from_right false (rev (map digit_val t)).

(** A score within [0.0, 1.0]. *)
Definition in_unit (q : Q) : Prop := (0 <= q)%Q /\ (q <= 1)%Q.


(** The identity: the rounding of exact arithmetic. *)
Definition exact (q : Q) : Q := q.

(** The Results the track-data recognizer validates: the pattern matches,
    then one ["PERSON"] Result per person name the NLP engine detected. *)
Definition person_result (rnd : Q -> Q) (entity : Entity) : RecognizerResult :=
  mkResult (lit "PERSON") (start_char entity) (end_char entity) (rnd (85 # 100)).

Definition detected_persons (nlp_artifacts : option NlpArtifacts) : list Entity :=
  match nlp_artifacts with
  | Some artifacts =>
      List.filter (fun e => eqb_str (label_ e) (lit "PERSON")) (entities artifacts)
  | None => []
  end.

Definition track_candidates (rnd : Q -> Q) (results : list RecognizerResult)
  (nlp_artifacts : option NlpArtifacts) : list RecognizerResult :=
  results ++ map (person_result rnd) (detected_persons nlp_artifacts).

(** A validated hit: a track-data match must carry a Luhn-valid number. *)
Definition validated (text : str) (r : RecognizerResult) : bool :=
  if eqb_str (entity_type r) (lit "CREDIT_CARD_TRACK_DATA")
  then luhn_sum (re_sub_class Luhn.non_digit (matched_text text r)) mod 10 =? 0
  else true.

Definition validated_hits (rnd : Q -> Q) (text : str)
  (results : list RecognizerResult) (nlp_artifacts : option NlpArtifacts)
  : list RecognizerResult :=
  List.filter (validated text) (track_candidates rnd results nlp_artifacts).

Definition correlated_hits (hits : list RecognizerResult) : nat :=
  length (List.filter CCTrackDataRecognizer.is_track_data_hit hits).

(** Texts and matches used as examples. *)
Definition fiscal_code_text : str := lit "RSSMRA85T10A562S".

Definition fiscal_code_match : RecognizerResult :=
  mkResult (lit "ITALY_FISCAL_CODE") 0 16 1.

Definition two_cards_text : str := lit "4111111111111111 5500005555555559".

Definition two_cards_matches : list RecognizerResult :=
  [mkResult (lit "PCI_DSS_CREDIT_CARD_OR_TRACK_DATA") 0 16 (85 # 100);
   mkResult (lit "PCI_DSS_CREDIT_CARD_OR_TRACK_DATA") 17 33 (85 # 100)].

Definition two_track_hits : list RecognizerResult :=
  [mkResult (lit "CREDIT_CARD_TRACK_DATA") 0 16 (85 # 100);
   mkResult (lit "CREDIT_CARD_TRACK_DATA") 17 33 (85 # 100)].

(** What one pass of the Canadian overlap filter does to a kept entry. *)
Definition merged (result fr : RecognizerResult) : RecognizerResult :=
  if CanadaDriversLicenceRecognizer.overlaps fr result
  then CanadaDriversLicenceRecognizer.take_over fr result
  else fr.

(** A kept entry widened to cover both spans, with the higher score. *)
Definition widened (fr result fr' : RecognizerResult) : Prop :=
  start fr' = Z.min (start fr) (start result)
  /\ end_ fr' = Z.max (end_ fr) (end_ result)
  /\ (score fr <= score fr')%Q /\ (score result <= score fr')%Q.



Definition licence (a b : Z) (q : Q) : RecognizerResult :=
  mkResult (lit "CANADA_DRIVERS_LICENCE") a b q.


Definition bank_text : str :=
  lit "bank account 012-785-1234567, ref 123456".

Definition bank_matches : list RecognizerResult :=
  [mkResult (lit "AUSTRALIA_BANK_ACCOUNT") 13 28 (85 # 100);
   mkResult (lit "AUSTRALIA_BANK_ACCOUNT") 34 40 (5 # 10)].



(** The position of a Result. *)
Definition span (r : RecognizerResult) : Z * Z := (start r, end_ r).

(** Two Results with the same position and score. *)
Definition same_hit (a b : RecognizerResult) : Prop :=
  start a = start b /\ end_ a = end_ b /\ score a = score b.

(** The Luhn test of the digits of a text, other characters ignored. *)
Definition luhn_ok (t : str) : bool :=
  luhn_sum (re_sub_class Luhn.non_digit t) mod 10 =? 0.

(** A letter or a digit. *)
Definition alnum (c : ascii) : bool := isdigit_char c || isalpha_char c.

Definition three_names : option NlpArtifacts :=
  Some (mkNlpArtifacts
          [mkEntity (lit "PERSON") 0 3; mkEntity (lit "PERSON") 8 11;
           mkEntity (lit "PERSON") 16 19]).


Definition swedish_text : str := lit "personnummer 19811218-9876".

Definition swedish_match : RecognizerResult :=
  mkResult (lit "SWEDEN_NATIONAL_ID") 13 26 (5 # 10).

Definition no_context_text : str := lit "BSB 012-785, ref 123456".

Definition no_context_matches : list RecognizerResult :=
  [mkResult (lit "AUSTRALIA_BANK_ACCOUNT") 4 11 (8 # 10);
   mkResult (lit "AUSTRALIA_BANK_ACCOUNT") 17 23 (5 # 10)].

(** * Properties *)

(** ** Characters and [int] *)

Ltac each_char c :=
  destruct c as [[] [] [] [] [] [] [] []]; try discriminate; try reflexivity.

Lemma int_char_digit (c : ascii) :
  isdigit_char c = true -> int_char c = Ok (digit_val c).
Proof. each_char c. Qed.

Lemma digit_val_range (c : ascii) :
  isdigit_char c = true -> 0 <= digit_val c <= 9.
Proof. each_char c; intros _; vm_compute; split; discriminate. Qed.

Lemma digit_not_space (c : ascii) :
  isdigit_char c = true -> isspace_char c = false.
Proof. each_char c. Qed.

Lemma digit_not_sign (c : ascii) :
  isdigit_char c = true ->
  eqb_char c "-" = false /\ eqb_char c "+" = false.
Proof. each_char c; intros _; split; reflexivity. Qed.

Lemma eqb_char_eq (a b : ascii) : eqb_char a b = true <-> a = b.
Proof. apply Ascii.eqb_eq. Qed.

Lemma map_res_ok {A B : Type} (f : A -> res B) (g : A -> B) (l : list A) :
  Forall (fun x => f x = Ok (g x)) l -> map_res f l = Ok (map g l).
Proof.
  induction 1 as [| x l Hx _ IH]; simpl; [reflexivity |].
  rewrite Hx, IH. reflexivity.
Qed.

Lemma forallb_Forall {A : Type} (p : A -> bool) (l : list A) :
  forallb p l = true -> Forall (fun x => p x = true) l.
Proof.
  induction l as [| x l IH]; simpl; intros H; constructor.
  - apply andb_prop in H. tauto.
  - apply IH. apply andb_prop in H. tauto.
Qed.

Lemma len_cons {A : Type} (x : A) (l : list A) : len (x :: l) = len l + 1.
Proof. unfold len. simpl length. lia. Qed.

Lemma len_nonneg {A : Type} (l : list A) : 0 <= len l.
Proof. unfold len. lia. Qed.

Lemma int_digits_all_digits (ds : str) (acc : Z) :
  forallb isdigit_char ds = true ->
  int_digits acc true ds = Some (acc * 10 ^ len ds + decimal_value ds).
Proof.
  revert acc. induction ds as [| c ds IH]; intros acc H; simpl in *.
  - f_equal. unfold len. simpl. lia.
  - apply andb_prop in H as [Hc Hds]. rewrite Hc, IH by assumption.
    f_equal. rewrite len_cons, Z.pow_add_r by (pose proof (len_nonneg ds); lia).
    lia.
Qed.

Lemma lstrip_digit (c : ascii) (t : str) :
  isdigit_char c = true -> lstrip (c :: t) = c :: t.
Proof. intros H. simpl. rewrite (digit_not_space c H). reflexivity. Qed.

Lemma strip_digits (ds : str) :
  forallb isdigit_char ds = true -> strip ds = ds.
Proof.
  intros H. unfold strip.
  assert (Hl : forall t, forallb isdigit_char t = true -> lstrip t = t).
  { intros [| c t] Ht; [reflexivity |]. simpl in Ht.
    apply andb_prop in Ht as [Hc _]. apply lstrip_digit, Hc. }
  rewrite (Hl ds H), Hl, rev_involutive; [reflexivity |].
  rewrite forallb_forall in *. intros x Hx. apply H, in_rev, Hx.
Qed.

Lemma int_of_digits (ds : str) :
  ds <> [] -> forallb isdigit_char ds = true -> int ds = Ok (decimal_value ds).
Proof.
  intros Hne H. unfold int. rewrite (strip_digits ds H).
  destruct ds as [| c ds]; [contradiction |].
  pose proof H as H'. simpl in H'. apply andb_prop in H' as [Hc Hds].
  destruct (digit_not_sign c Hc) as [-> ->].
  simpl int_digits. rewrite Hc, (int_digits_all_digits ds _ Hds).
  reflexivity.
Qed.

(** ** Luhn *)

Lemma sum_from (l : list Z) (a : Z) : fold_left Z.add l a = a + sum l.
Proof.
  unfold sum. revert a. induction l as [| x l IH]; intros a; simpl.
  - lia.
  - rewrite (IH (a + x)), (IH (0 + x)). lia.
Qed.

Lemma sum_cons (x : Z) (l : list Z) : sum (x :: l) = x + sum l.
Proof. unfold sum at 1. simpl. apply sum_from. Qed.

Lemma digits_of_digits (t : str) :
  forallb isdigit_char t = true -> Luhn.digits_of t = Ok (map digit_val t).
Proof.
  intros H. apply map_res_ok.
  apply forallb_Forall in H. induction H as [| c l Hc _ IH]; constructor.
  - apply int_char_digit, Hc.
  - exact IH.
Qed.

Lemma digits_in_range (t : str) :
  forallb isdigit_char t = true ->
  Forall (fun d => 0 <= d <= 9) (map digit_val t).
Proof.
  intros H. apply forallb_Forall in H.
  induction H as [| c l Hc _ IH]; simpl; constructor.
  - apply digit_val_range, Hc.
  - exact IH.
Qed.

Lemma non_digits_removed (ccn : str) :
  forallb isdigit_char (re_sub_class Luhn.non_digit ccn) = true.
Proof.
  unfold re_sub_class, Luhn.non_digit.
  induction ccn as [| c t IH]; simpl; [reflexivity |].
  destruct (isdigit_char c) eqn:Hc; simpl; [rewrite Hc |]; exact IH.
Qed.

Lemma doubled_digit_sum (d : Z) :
  0 <= d <= 9 ->
  exists ds, Luhn.digits_of (str_of_int (d * 2)) = Ok ds /\ sum ds = luhn_double d.
Proof.
  intros H.
  assert (Hd : d = 0 \/ d = 1 \/ d = 2 \/ d = 3 \/ d = 4 \/ d = 5 \/ d = 6
               \/ d = 7 \/ d = 8 \/ d = 9) by lia.
  repeat (destruct Hd as [-> | Hd]); try subst d;
    eexists; (split; [vm_compute; reflexivity | reflexivity]).
Qed.

Lemma even_steps (l : list Z) (acc : Z) :
  Forall (fun d => 0 <= d <= 9) l ->
  for_each Luhn.even_step acc l = Ok (acc + sum (map luhn_double l)).
Proof.
  intros H. revert acc. induction H as [| d l Hd _ IH]; intros acc; simpl.
  - f_equal. unfold sum. simpl. lia.
  - unfold Luhn.even_step at 1.
    destruct (doubled_digit_sum d Hd) as (ds & -> & Hs). simpl.
    rewrite IH, sum_cons, Hs. f_equal. lia.
Qed.

Lemma every_other_cons {A : Type} (x : A) (l : list A) :
  Luhn.every_other (x :: l) = x :: Luhn.every_other (tl l).
Proof. destruct l; reflexivity. Qed.

Lemma every_other_Forall {A : Type} (P : A -> Prop) (l : list A) :
  Forall P l -> Forall P (Luhn.every_other l) /\ Forall P (Luhn.every_other (tl l)).
Proof.
  induction 1 as [| x l Hx Hl [IH1 IH2]].
  - split; constructor.
  - split.
    + rewrite every_other_cons. constructor; assumption.
    + exact IH1.
Qed.

Lemma luhn_from_right_split (l : list Z) :
  sum (Luhn.every_other l) + sum (map luhn_double (Luhn.every_other (tl l)))
  = luhn_from_right false l
  /\ sum (map luhn_double (Luhn.every_other l)) + sum (Luhn.every_other (tl l))
     = luhn_from_right true l.
Proof.
  induction l as [| x l [IH1 IH2]].
  - split; reflexivity.
  - rewrite every_other_cons. simpl tl. simpl map. simpl luhn_from_right.
    rewrite !sum_cons. split; lia.
Qed.

Lemma luhn_checksum_digits (t : str) :
  forallb isdigit_char t = true ->
  Luhn.luhn_checksum t = Ok (luhn_sum t mod 10 =? 0).
Proof.
  intros H. unfold Luhn.luhn_checksum.
  rewrite (digits_of_digits t H). simpl bind.
  pose proof (digits_in_range t H) as Hr.
  apply (Forall_rev (A := Z)) in Hr.
  destruct (every_other_Forall _ _ Hr) as [_ He].
  unfold Luhn.from_second_last_by_2, Luhn.from_last_by_2.
  rewrite (even_steps _ _ He). simpl bind.
  destruct (luhn_from_right_split (rev (map digit_val t))) as [-> _].
  reflexivity.
Qed.

Lemma validate_ccn_luhn (ccn : str) :
  Luhn.validate_ccn ccn
  = Ok (luhn_sum (re_sub_class Luhn.non_digit ccn) mod 10 =? 0).
Proof. apply luhn_checksum_digits, non_digits_removed. Qed.

Lemma re_sub_class_id (cls : ascii -> bool) (t : str) :
  forallb (fun c => negb (cls c)) t = true -> re_sub_class cls t = t.
Proof.
  unfold re_sub_class. induction t as [| c t IH]; simpl; [reflexivity |].
  intros H. apply andb_prop in H as [-> Ht]. f_equal. exact (IH Ht).
Qed.

Lemma digits_kept_by_non_digit (t : str) :
  forallb isdigit_char t = true -> re_sub_class Luhn.non_digit t = t.
Proof.
  intros H. apply re_sub_class_id. unfold Luhn.non_digit.
  induction t as [| c t IH]; simpl in *; [reflexivity |].
  apply andb_prop in H as [-> Ht]. simpl. exact (IH Ht).
Qed.

Lemma luhn_from_right_snoc (l : list Z) (b : bool) (d : Z) :
  luhn_from_right b (l ++ [d])
  = luhn_from_right b l + (if xorb b (Z.odd (len l)) then luhn_double d else d).
Proof.
  revert b. induction l as [| x l IH]; intros b; cbn [luhn_from_right app].
  - destruct b; simpl; lia.
  - rewrite IH, len_cons.
    replace (Z.odd (len l + 1)) with (negb (Z.odd (len l)))
      by (rewrite Z.add_1_r, Z.odd_succ, Z.negb_odd; reflexivity).
    destruct b, (Z.odd (len l)); simpl; lia.
Qed.

Lemma same_parity_test (k m : Z) :
  (Z.lxor (Z.land k 1) (Z.land (k + m) 1) =? 0) = Z.even m.
Proof.
  change 1 with (Z.ones 1).
  rewrite !Z.land_ones by lia. change (2 ^ 1) with 2.
  rewrite !Zmod_even, Z.even_add.
  destruct (Z.even k), (Z.even m); reflexivity.
Qed.

Lemma index_middle {A : Type} (pre suf : list A) (x : A) :
  index (pre ++ x :: suf) (Z.of_nat (length pre)) = Ok x.
Proof.
  assert (E : (Z.of_nat (length pre) <? 0) = false) by (apply Z.ltb_ge; lia).
  unfold index. cbv zeta. rewrite !E.
  rewrite Nat2Z.id, nth_error_app2, Nat.sub_diag by lia. reflexivity.
Qed.

Lemma credit_card_loop (suf pre : str) (acc : Z) :
  forallb isdigit_char suf = true ->
  for_each
    (AllCreditCardNumberRecognizer.luhn_step (pre ++ suf)
       (Z.land (Z.of_nat (length (pre ++ suf))) 1))
    acc (map Z.of_nat (seq (length pre) (length suf)))
  = Ok (acc + luhn_from_right false (rev (map digit_val suf))).
Proof.
  revert pre acc. induction suf as [| c r IH]; intros pre acc H.
  - simpl. f_equal. lia.
  - simpl in H. apply andb_prop in H as [Hc Hr].
    simpl length. simpl seq. simpl map. simpl for_each.
    unfold AllCreditCardNumberRecognizer.luhn_step at 1.
    rewrite index_middle. simpl bind.
    rewrite (int_char_digit c Hc). simpl bind.
    replace (pre ++ c :: r) with ((pre ++ [c]) ++ r)
      by (rewrite <- app_assoc; reflexivity).
    replace (S (length pre)) with (length (pre ++ [c]))
      by (rewrite length_app; simpl; lia).
    rewrite (IH (pre ++ [c]) _ Hr). f_equal.
    cbn [rev map]. rewrite luhn_from_right_snoc. simpl xorb.
    replace (len (rev (map digit_val r))) with (len r)
      by (unfold len; rewrite length_rev, length_map; reflexivity).
    replace (Z.of_nat (length ((pre ++ [c]) ++ r)))
      with (Z.of_nat (length pre) + (len r + 1))
      by (unfold len; rewrite !length_app; simpl; lia).
    rewrite same_parity_test.
    replace (Z.even (len r + 1)) with (Z.odd (len r))
      by (rewrite Z.add_1_r, Z.even_succ; reflexivity).
    pose proof (digit_val_range c Hc) as Hv.
    unfold luhn_double.
    destruct (Z.odd (len r)).
    + replace (digit_val c * 2) with (2 * digit_val c) by lia. lia.
    + destruct (digit_val c >? 9) eqn:E; lia.
Qed.

Lemma digits_kept_by_space_or_dash (t : str) :
  forallb isdigit_char t = true ->
  re_sub_class AllCreditCardNumberRecognizer.space_or_dash t = t.
Proof.
  intros H. apply re_sub_class_id.
  induction t as [| c t IH]; simpl in *; [reflexivity |].
  apply andb_prop in H as [Hc Ht]. rewrite (IH Ht), andb_true_r.
  unfold AllCreditCardNumberRecognizer.space_or_dash.
  rewrite (digit_not_space c Hc). destruct (digit_not_sign c Hc) as [-> _].
  reflexivity.
Qed.

Lemma is_valid_credit_card_luhn (t : str) :
  isdigit t = true ->
  AllCreditCardNumberRecognizer._is_valid_credit_card t
  = Ok (luhn_sum t mod 10 =? 0).
Proof.
  intros H.
  assert (Hd : forallb isdigit_char t = true)
    by (destruct t; [discriminate | exact H]).
  unfold AllCreditCardNumberRecognizer._is_valid_credit_card.
  rewrite (digits_kept_by_space_or_dash t Hd), H. simpl negb. cbv iota.
  pose proof (credit_card_loop t [] 0 Hd) as L. simpl in L.
  rewrite L. reflexivity.
Qed.

(** C7. The Luhn validators of the payment-card recognizers
    ([_is_valid_credit_card] and [validate_ccn]) accept
    "4111111111111111" and reject "4111111111111112"; a string of digits
    is accepted exactly when its Luhn sum (every second digit from the
    right doubled, 9 subtracted from a product above 9) is divisible
    by 10. *)
Theorem luhn_validators_accept_luhn_sums :
  (AllCreditCardNumberRecognizer._is_valid_credit_card (lit "4111111111111111")
   = Ok true
   /\ AllCreditCardNumberRecognizer._is_valid_credit_card (lit "4111111111111112")
      = Ok false
   /\ Luhn.validate_ccn (lit "4111111111111111") = Ok true
   /\ Luhn.validate_ccn (lit "4111111111111112") = Ok false)
  /\ forall t : str,
       isdigit t = true ->
       AllCreditCardNumberRecognizer._is_valid_credit_card t
       = Ok (luhn_sum t mod 10 =? 0)
       /\ Luhn.validate_ccn t = Ok (luhn_sum t mod 10 =? 0).
Proof.
  split.
  - repeat split; vm_compute; reflexivity.
  - intros t H. split.
    + apply is_valid_credit_card_luhn, H.
    + assert (Hd : forallb isdigit_char t = true)
        by (destruct t; [discriminate | exact H]).
      rewrite validate_ccn_luhn, (digits_kept_by_non_digit t Hd). reflexivity.
Qed.

Lemma luhn_validators_accept_luhn_sums_witness :
  isdigit (lit "79927398713") = true
  /\ AllCreditCardNumberRecognizer._is_valid_credit_card (lit "79927398713")
     = Ok (luhn_sum (lit "79927398713") mod 10 =? 0)
  /\ Luhn.validate_ccn (lit "79927398713")
     = Ok (luhn_sum (lit "79927398713") mod 10 =? 0).
Proof.
  split; [reflexivity |].
  apply (proj2 luhn_validators_accept_luhn_sums (lit "79927398713")).
  reflexivity.
Defined.

(** ** Spanish DNI *)

Lemma slice_to_all_but_last {A : Type} (l : list A) (x : A) :
  slice_to (l ++ [x]) (-1) = l.
Proof.
  unfold slice_to, clamp, len. rewrite length_app. simpl length.
  change (-1 <? 0) with true. cbv iota.
  replace (Z.to_nat (Z.max 0 (-1 + Z.of_nat (length l + 1)))) with (length l)
    by lia.
  rewrite firstn_app, Nat.sub_diag, firstn_all. simpl. apply app_nil_r.
Qed.

Lemma index_last {A : Type} (l : list A) (x : A) :
  index (l ++ [x]) (-1) = Ok x.
Proof.
  unfold index, len. rewrite length_app. simpl length.
  change (-1 <? 0) with true. cbv iota zeta.
  assert (E : (-1 + Z.of_nat (length l + 1) <? 0) = false)
    by (apply Z.ltb_ge; lia).
  rewrite E.
  replace (Z.to_nat (-1 + Z.of_nat (length l + 1))) with (length l) by lia.
  rewrite nth_error_app2, Nat.sub_diag by lia. reflexivity.
Qed.

Lemma index_in_range {A : Type} (l : list A) (i : Z) :
  0 <= i < len l ->
  exists x, index l i = Ok x /\ nth_error l (Z.to_nat i) = Some x.
Proof.
  intros [H0 H1]. unfold index.
  assert (E : (i <? 0) = false) by (apply Z.ltb_ge; lia).
  rewrite !E.
  destruct (nth_error l (Z.to_nat i)) as [x |] eqn:N.
  - exists x. split; reflexivity.
  - apply nth_error_None in N. unfold len in H1. lia.
Qed.

(** C8. The Spanish DNI validator accepts "12345678Z" and rejects
    "12345678A"; for eight digits followed by one character it returns
    true exactly when that character is the one of
    "TRWAGMYFPDXBNJZSQVHLCKE" at index (the eight-digit number mod 23). *)
Theorem dni_checksum_is_mod_23_letter :
  (SpainDNIRecognizer._validate_dni_checksum (lit "12345678Z") = Ok true
   /\ SpainDNIRecognizer._validate_dni_checksum (lit "12345678A") = Ok false)
  /\ forall (ds : str) (c : ascii),
       length ds = 8%nat ->
       forallb isdigit_char ds = true ->
       exists b : bool,
         SpainDNIRecognizer._validate_dni_checksum (ds ++ [c]) = Ok b
         /\ (b = true <->
             nth_error SpainDNIRecognizer.valid_letters
               (Z.to_nat (decimal_value ds mod 23)) = Some c).
Proof.
  split; [split; vm_compute; reflexivity |].
  intros ds c Hlen Hd.
  unfold SpainDNIRecognizer._validate_dni_checksum.
  rewrite slice_to_all_but_last, index_last. simpl bind.
  rewrite int_of_digits; [| destruct ds; [discriminate | discriminate] | exact Hd].
  simpl bind.
  destruct (index_in_range SpainDNIRecognizer.valid_letters
              (decimal_value ds mod 23)) as (x & -> & ->).
  - change (len SpainDNIRecognizer.valid_letters) with 23.
    apply Z.mod_pos_bound. lia.
  - simpl. exists (eqb_char x c). split; [reflexivity |].
    rewrite eqb_char_eq. split; [intros ->; reflexivity | intros [= ->]; reflexivity].
Qed.

Lemma dni_checksum_is_mod_23_letter_witness :
  length (lit "00000023") = 8%nat
  /\ forallb isdigit_char (lit "00000023") = true
  /\ exists b : bool,
       SpainDNIRecognizer._validate_dni_checksum (lit "00000023" ++ ["T"%char])
       = Ok b
       /\ (b = true <->
           nth_error SpainDNIRecognizer.valid_letters
             (Z.to_nat (decimal_value (lit "00000023") mod 23)) = Some "T"%char).
Proof.
  split; [reflexivity |]. split; [reflexivity |].
  apply (proj2 dni_checksum_is_mod_23_letter (lit "00000023") "T"%char);
    reflexivity.
Defined.

(** ** Italian fiscal code *)

(** C1. The fiscal-code recognizer should validate the matched text:
    "RSSMRA85T10A562S" passes the checksum, so its match should score 1.0.
    [analyze] validates [result.entity_type] instead, and the match
    scores 0.0. *)
Theorem fiscal_code_valid_match_scores_zero (rnd : Q -> Q) :
  ItalyFiscalCodeRecognizer._validate_checksum
    (re_sub_class ItalyFiscalCodeRecognizer.not_upper_alnum
       (matched_text fiscal_code_text fiscal_code_match))
  = Ok true
  /\ ItalyFiscalCodeRecognizer.analyze rnd fiscal_code_text [fiscal_code_match]
     = Ok [set_score fiscal_code_match 0].
Proof. split; vm_compute; reflexivity. Qed.

(** ** Validators on malformed input *)

(** C3. A checksum validator should return false on a malformed string.
    The Dutch national-ID validator raises on a string shorter than nine
    characters and on a non-digit, where the Dutch VAT validator doing
    the same weighted sum returns false; the Swedish validator raises on
    a non-digit and accepts the empty string; the Spanish validator
    raises on the empty string and the Italian one on a lower-case
    letter. *)
Theorem validators_raise_on_malformed_input :
  NetherlandsNationalIDRecognizer._is_valid_checksum (lit "12345")
  = Raise IndexError
  /\ NetherlandsNationalIDRecognizer._is_valid_checksum (lit "12345678X")
     = Raise ValueError
  /\ NetherlandsVATRecognizer.validate_checksum (lit "12345") = Ok false
  /\ NetherlandsVATRecognizer.validate_checksum (lit "12345678XB1234") = Ok false
  /\ SwedenNationalIDRecognizer._is_valid_checksum (lit "12a4")
     = Raise ValueError
  /\ SwedenNationalIDRecognizer._is_valid_checksum [] = Ok true
  /\ SpainDNIRecognizer._validate_dni_checksum [] = Raise IndexError
  /\ ItalyFiscalCodeRecognizer._validate_checksum (lit "rssmra85t10a562s")
     = Raise KeyError.
Proof. repeat split; vm_compute; reflexivity. Qed.

(** ** Track data: quorum *)

Lemma custom_validate_result_validated (text : str) (r : RecognizerResult) :
  CCTrackDataRecognizer.custom_validate_result r text = Ok (validated text r).
Proof.
  unfold CCTrackDataRecognizer.custom_validate_result, validated.
  destruct (eqb_str (entity_type r) (lit "CREDIT_CARD_TRACK_DATA")).
  - apply validate_ccn_luhn.
  - reflexivity.
Qed.

Lemma add_persons_candidates (rnd : Q -> Q) (results : list RecognizerResult)
  (nlp_artifacts : option NlpArtifacts) :
  CCTrackDataRecognizer.add_persons rnd results nlp_artifacts
  = track_candidates rnd results nlp_artifacts.
Proof.
  unfold CCTrackDataRecognizer.add_persons, track_candidates, detected_persons.
  destruct nlp_artifacts as [[es] |]; cbn [entities];
    [| symmetry; apply app_nil_r].
  assert (H : forall l acc,
             fold_left (CCTrackDataRecognizer.person_step rnd) l acc
             = acc ++ map (person_result rnd)
                        (List.filter (fun e => eqb_str (label_ e) (lit "PERSON")) l)).
  { induction l as [| e l IH]; intros acc; simpl.
    - symmetry. apply app_nil_r.
    - rewrite IH. unfold CCTrackDataRecognizer.person_step at 1.
      destruct (eqb_str (label_ e) (lit "PERSON")); simpl.
      + rewrite <- app_assoc. reflexivity.
      + reflexivity. }
  destruct es as [| e es]; [symmetry; apply app_nil_r | apply H].
Qed.

Lemma count_loop (text : str) (l valid_results : list RecognizerResult) (n : Z) :
  for_each (CCTrackDataRecognizer.count_step text) (valid_results, n) l
  = Ok (valid_results ++ List.filter (validated text) l,
        n + Z.of_nat (correlated_hits (List.filter (validated text) l))).
Proof.
  revert valid_results n. induction l as [| r l IH]; intros vr n.
  - simpl. rewrite app_nil_r. f_equal. f_equal. unfold correlated_hits. simpl. lia.
  - cbn [for_each]. unfold CCTrackDataRecognizer.count_step at 1.
    rewrite custom_validate_result_validated. cbn [bind List.filter].
    destruct (validated text r).
    + cbn [bind]. rewrite IH, <- app_assoc. cbn [app]. f_equal. f_equal.
      unfold correlated_hits. cbn [List.filter].
      destruct (CCTrackDataRecognizer.is_track_data_hit r); cbn [length]; lia.
    + cbn [bind]. apply IH.
Qed.

(** C9. The track-data recognizer returns the empty list when fewer than
    three validated correlated hits (track-data matches and person names)
    are found, and all validated hits when at least three are; two
    hits give no Result. *)
Theorem track_data_quorum (rnd : Q -> Q) (text : str)
  (results : list RecognizerResult) (nlp_artifacts : option NlpArtifacts) :
  CCTrackDataRecognizer.analyze rnd text results nlp_artifacts
  = Ok (if (correlated_hits (validated_hits rnd text results nlp_artifacts) <? 3)%nat
        then []
        else validated_hits rnd text results nlp_artifacts)
  /\ correlated_hits (validated_hits rnd two_cards_text two_track_hits None)
     = 2%nat
  /\ CCTrackDataRecognizer.analyze rnd two_cards_text two_track_hits None = Ok [].
Proof.
  split; [| split; vm_compute; reflexivity].
  unfold CCTrackDataRecognizer.analyze.
  rewrite add_persons_candidates, count_loop. cbn [bind app].
  fold (validated_hits rnd text results nlp_artifacts).
  set (k := correlated_hits (validated_hits rnd text results nlp_artifacts)).
  destruct (k <? 3)%nat eqn:E.
  - apply Nat.ltb_lt in E.
    destruct (0 + Z.of_nat k >=? 3) eqn:F; [| reflexivity].
    apply Z.geb_le in F. lia.
  - apply Nat.ltb_ge in E.
    destruct (0 + Z.of_nat k >=? 3) eqn:F; [reflexivity |].
    rewrite Z.geb_leb in F. apply Z.leb_gt in F. lia.
Qed.

(** ** PCI-DSS: a single Result *)

Lemma detect_track_data_returns (rnd : Q -> Q) (text : str)
  (matches : list (Z * Z)) (acc : list RecognizerResult) :
  exists found,
    for_each (PCI_DSS_CreditCardAndTrackDataRecognizer.track_step rnd text)
      acc matches = Ok (acc ++ found).
Proof.
  revert acc. induction matches as [| [a b] ms IH]; intros acc.
  - exists []. simpl. rewrite app_nil_r. reflexivity.
  - cbn [for_each].
    unfold PCI_DSS_CreditCardAndTrackDataRecognizer.track_step at 1.
    unfold PCI_DSS_CreditCardAndTrackDataRecognizer.validate_ccn.
    rewrite validate_ccn_luhn. cbn [bind].
    destruct (luhn_sum _ mod 10 =? 0); cbn [bind].
    + destruct (IH (acc ++ [mkResult (lit "CREDIT_CARD_TRACK_DATA") a b
                              (rnd (9 # 10))])) as [found ->].
      rewrite <- app_assoc. eexists. reflexivity.
    + apply IH.
Qed.

Lemma unique_loop_keeps_prefix (l unique_results : list RecognizerResult)
  (seen_positions : gset (Z * Z)) :
  exists more,
    fst (fold_left PCI_DSS_CreditCardAndTrackDataRecognizer.unique_step l
           (unique_results, seen_positions))
    = unique_results ++ more.
Proof.
  revert unique_results seen_positions.
  induction l as [| r l IH]; intros u s; cbn [fold_left].
  - exists []. simpl. rewrite app_nil_r. reflexivity.
  - unfold PCI_DSS_CreditCardAndTrackDataRecognizer.unique_step at 2.
    destruct (bool_decide ((start r, end_ r) ∈ s)).
    + apply IH.
    + destruct (IH (u ++ [r]) ({[(start r, end_ r)]} ∪ s)) as [more ->].
      rewrite <- app_assoc. eexists. reflexivity.
Qed.

Lemma first_unique_is_first (l : list RecognizerResult) :
  firstn 1 (PCI_DSS_CreditCardAndTrackDataRecognizer.filter_unique_results l)
  = firstn 1 l.
Proof.
  destruct l as [| r l]; [reflexivity |].
  unfold PCI_DSS_CreditCardAndTrackDataRecognizer.filter_unique_results.
  cbn [fold_left].
  unfold PCI_DSS_CreditCardAndTrackDataRecognizer.unique_step at 2.
  replace (bool_decide ((start r, end_ r) ∈ (∅ : gset (Z * Z)))) with false
    by (symmetry; apply bool_decide_eq_false, not_elem_of_empty).
  destruct (unique_loop_keeps_prefix l ([] ++ [r])
              ({[(start r, end_ r)]} ∪ ∅)) as [more ->].
  reflexivity.
Qed.

(** C10. The PCI-DSS recognizer returns at most one Result: the first of
    the hits left after deduplication by (start, end), which is the
    first hit found; a text with two distinct valid card numbers yields
    one Result. *)
Theorem pci_dss_returns_first_hit_only (rnd : Q -> Q) (text : str)
  (results : list RecognizerResult) (matches : list (Z * Z)) :
  (exists track_data_results out,
     PCI_DSS_CreditCardAndTrackDataRecognizer.detect_track_data rnd text matches
     = Ok track_data_results
     /\ PCI_DSS_CreditCardAndTrackDataRecognizer.analyze rnd text results matches
        = Ok out
     /\ out = firstn 1
                (PCI_DSS_CreditCardAndTrackDataRecognizer.filter_unique_results
                   (results ++ track_data_results))
     /\ out = firstn 1 (results ++ track_data_results)
     /\ (length out <= 1)%nat)
  /\ PCI_DSS_CreditCardAndTrackDataRecognizer.analyze rnd two_cards_text
       two_cards_matches []
     = Ok (firstn 1 two_cards_matches).
Proof.
  split; [| vm_compute; reflexivity].
  destruct (detect_track_data_returns rnd text matches []) as [found Hf].
  cbn [app] in Hf.
  exists found,
    (firstn 1 (PCI_DSS_CreditCardAndTrackDataRecognizer.filter_unique_results
                 (results ++ found))).
  split; [exact Hf |]. split; [| split; [reflexivity | split]].
  - unfold PCI_DSS_CreditCardAndTrackDataRecognizer.analyze,
      PCI_DSS_CreditCardAndTrackDataRecognizer.detect_track_data.
    rewrite Hf. cbn [bind].
    replace (match found with [] => results | _ :: _ => results ++ found end)
      with (results ++ found)
      by (destruct found; [apply app_nil_r | reflexivity]).
    destruct (PCI_DSS_CreditCardAndTrackDataRecognizer.filter_unique_results
                (results ++ found)) as [| first rest]; reflexivity.
  - apply first_unique_is_first.
  - rewrite length_firstn. lia.
Qed.

(** ** Canadian driver's licence: overlapping matches *)

Lemma Qltb_true (a b : Q) : Qltb a b = true -> (a < b)%Q.
Proof.
  unfold Qltb. intros H. apply negb_true_iff in H.
  apply Qnot_le_lt. intros L. apply Qle_bool_iff in L. congruence.
Qed.

Lemma Qltb_false (a b : Q) : Qltb a b = false -> (b <= a)%Q.
Proof.
  unfold Qltb. intros H. apply negb_false_iff in H.
  apply Qle_bool_iff, H.
Qed.

Lemma inner_loop (result : RecognizerResult) (frs visited : list RecognizerResult)
  (overlap : bool) :
  fold_left (CanadaDriversLicenceRecognizer.inner_step result) frs
    (overlap, visited)
  = (overlap
     || existsb (fun fr => CanadaDriversLicenceRecognizer.overlaps fr result) frs,
     visited ++ map (merged result) frs).
Proof.
  revert visited overlap. induction frs as [| fr frs IH]; intros v o.
  - simpl. rewrite orb_false_r, app_nil_r. reflexivity.
  - cbn [fold_left existsb map].
    unfold CanadaDriversLicenceRecognizer.inner_step at 2.
    replace (merged result fr)
      with (if CanadaDriversLicenceRecognizer.overlaps fr result
            then CanadaDriversLicenceRecognizer.take_over fr result else fr)
      by reflexivity.
    destruct (CanadaDriversLicenceRecognizer.overlaps fr result);
      rewrite IH, <- app_assoc; cbn [app orb].
    + rewrite orb_true_r. reflexivity.
    + reflexivity.
Qed.

Lemma outer_step_merges (kept : list RecognizerResult) (result : RecognizerResult) :
  CanadaDriversLicenceRecognizer.outer_step kept result
  = map (merged result) kept
    ++ (if existsb (fun fr => CanadaDriversLicenceRecognizer.overlaps fr result) kept
        then [] else [result]).
Proof.
  unfold CanadaDriversLicenceRecognizer.outer_step.
  rewrite inner_loop. cbn [orb app].
  destruct (existsb _ kept); cbn [negb]; [rewrite app_nil_r |]; reflexivity.
Qed.

(** C4 (as the code has it). A new candidate that overlaps a kept one is
    not added.  The kept candidate takes the new candidate's start, end
    and score when the new score is strictly higher, and stays as it is
    otherwise; its score is then the higher of the two. *)
Theorem overlap_keeps_higher_scoring_span
  (before after : list RecognizerResult) (fr result : RecognizerResult) :
  CanadaDriversLicenceRecognizer.overlaps fr result = true ->
  exists fr',
    CanadaDriversLicenceRecognizer.outer_step (before ++ fr :: after) result
    = map (merged result) before ++ fr' :: map (merged result) after
    /\ (if Qltb (score fr) (score result)
        then start fr' = start result /\ end_ fr' = end_ result
             /\ score fr' = score result
        else fr' = fr)
    /\ (score fr <= score fr')%Q /\ (score result <= score fr')%Q.
Proof.
  intros Ho. exists (CanadaDriversLicenceRecognizer.take_over fr result).
  split; [| split].
  - rewrite outer_step_merges, existsb_app. cbn [existsb].
    rewrite Ho, orb_true_l, orb_true_r, app_nil_r, map_app. cbn [map].
    replace (merged result fr)
      with (CanadaDriversLicenceRecognizer.take_over fr result)
      by (unfold merged; rewrite Ho; reflexivity).
    reflexivity.
  - unfold CanadaDriversLicenceRecognizer.take_over.
    destruct (Qltb (score fr) (score result)); simpl; auto.
  - unfold CanadaDriversLicenceRecognizer.take_over.
    destruct (Qltb (score fr) (score result)) eqn:E; simpl.
    + split; [apply Qlt_le_weak, Qltb_true, E | apply Qle_refl].
    + split; [apply Qle_refl | apply Qltb_false, E].
Qed.

Lemma overlap_keeps_higher_scoring_span_witness :
  CanadaDriversLicenceRecognizer.overlaps
    (licence 0 8 (4 # 10)) (licence 0 8 (85 # 100)) = true
  /\ exists fr',
       CanadaDriversLicenceRecognizer.outer_step
         ([] ++ licence 0 8 (4 # 10) :: []) (licence 0 8 (85 # 100))
       = map (merged (licence 0 8 (85 # 100))) [] ++ fr'
           :: map (merged (licence 0 8 (85 # 100))) []
       /\ (if Qltb (score (licence 0 8 (4 # 10))) (score (licence 0 8 (85 # 100)))
           then start fr' = start (licence 0 8 (85 # 100))
                /\ end_ fr' = end_ (licence 0 8 (85 # 100))
                /\ score fr' = score (licence 0 8 (85 # 100))
           else fr' = licence 0 8 (4 # 10))
       /\ (score (licence 0 8 (4 # 10)) <= score fr')%Q
       /\ (score (licence 0 8 (85 # 100)) <= score fr')%Q.
Proof.
  split; [reflexivity |].
  apply (overlap_keeps_higher_scoring_span [] []
           (licence 0 8 (4 # 10)) (licence 0 8 (85 # 100))).
  reflexivity.
Defined.

(** C4 as stated fails: the kept span (0, 8) overlapped by (4, 12) with a
    higher score becomes (4, 12), not (0, 12). *)
Lemma overlap_does_not_widen :
  CanadaDriversLicenceRecognizer.overlaps
    (licence 0 8 (4 # 10)) (licence 4 12 (85 # 100)) = true
  /\ CanadaDriversLicenceRecognizer.analyze
       [licence 0 8 (4 # 10); licence 4 12 (85 # 100)]
     = [licence 4 12 (85 # 100)]
  /\ ~ widened (licence 0 8 (4 # 10)) (licence 4 12 (85 # 100))
         (licence 4 12 (85 # 100)).
Proof.
  split; [reflexivity |]. split; [reflexivity |].
  intros [H _]. discriminate H.
Qed.

(** ** Canadian driver's licence: order of the matches *)










(** ** Score bounds *)



Lemma rnd_in_unit (rnd : Q -> Q) (q : Q) :
  rounding rnd -> in_unit q -> in_unit (rnd q).
Proof.
  intros R [H0 H1]. split.
  - rewrite <- (rnd_0 rnd R). apply (rnd_mono rnd R), H0.
  - rewrite <- (rnd_1 rnd R). apply (rnd_mono rnd R), H1.
Qed.



Lemma literal_in_unit (rnd : Q -> Q) (q : Q) :
  rounding rnd -> (0 <= q)%Q -> (q <= 1)%Q -> in_unit (rnd q).
Proof. intros R H0 H1. apply (rnd_in_unit rnd q R). split; assumption. Qed.




Lemma australia_analyze_filters (rnd : Q -> Q) (text : str)
  (results : list RecognizerResult) :
  AustraliaBankAccountRecognizer.analyze rnd text results
  = List.filter (fun r => Qltb (rnd (3 # 10)) (score r))
      (map (AustraliaBankAccountRecognizer.rescore rnd text) results).
Proof.
  unfold AustraliaBankAccountRecognizer.analyze.
  assert (H : forall l acc,
             fold_left (AustraliaBankAccountRecognizer.analyze_step rnd text) l acc
             = acc ++ List.filter (fun r => Qltb (rnd (3 # 10)) (score r))
                        (map (AustraliaBankAccountRecognizer.rescore rnd text) l)).
  { induction l as [| r l IH]; intros acc; cbn [fold_left map List.filter].
    - symmetry. apply app_nil_r.
    - rewrite IH. unfold AustraliaBankAccountRecognizer.analyze_step.
      destruct (Qltb _ _); [rewrite <- app_assoc |]; reflexivity. }
  apply (H results []).
Qed.







Lemma exact_rounding : rounding exact.
Proof. split; unfold exact; [intros a b H; exact H | reflexivity | reflexivity]. Qed.






(** ** Results with score zero *)








(** ** The validators on well-formed input *)

Lemma netherlands_loop (suf pre : str) (total_sum multiplier : Z) :
  forallb isdigit_char suf = true ->
  for_each (NetherlandsNationalIDRecognizer.checksum_step (pre ++ suf))
    (total_sum, multiplier) (map Z.of_nat (seq (length pre) (length suf)))
  = Ok (total_sum + weighted_sum multiplier suf, multiplier - len suf).
Proof.
  revert pre total_sum multiplier.
  induction suf as [| c r IH]; intros pre t m H.
  - simpl. do 2 f_equal; unfold len; simpl; lia.
  - simpl in H. apply andb_prop in H as [Hc Hr].
    cbn [length seq map for_each].
    unfold NetherlandsNationalIDRecognizer.checksum_step at 1.
    rewrite index_middle. cbn [bind].
    rewrite (int_char_digit c Hc). cbn [bind].
    replace (pre ++ c :: r) with ((pre ++ [c]) ++ r)
      by (rewrite <- app_assoc; reflexivity).
    replace (S (length pre)) with (length (pre ++ [c]))
      by (rewrite length_app; simpl; lia).
    rewrite (IH (pre ++ [c]) _ _ Hr). cbn [weighted_sum].
    rewrite len_cons. do 2 f_equal; lia.
Qed.

(** On nine digits, the input its pattern matches, the Dutch national-ID
    validator returns the weighted mod-11 test. *)
Lemma netherlands_checksum_on_nine_digits (national_id : str) :
  length national_id = 9%nat ->
  forallb isdigit_char national_id = true ->
  NetherlandsNationalIDRecognizer._is_valid_checksum national_id
  = Ok (weighted_sum 9 national_id mod 11 =? 0).
Proof.
  intros Hl Hd. unfold NetherlandsNationalIDRecognizer._is_valid_checksum,
    NetherlandsNationalIDRecognizer.range.
  pose proof (netherlands_loop national_id [] 0 9 Hd) as L.
  cbn [app length] in L. rewrite Hl in L. rewrite L. reflexivity.
Qed.

Lemma sweden_loop (l : str) (sum_ : Z) (alternate : bool) :
  forallb isdigit_char l = true ->
  exists alternate',
    for_each SwedenNationalIDRecognizer.checksum_step (sum_, alternate) l
    = Ok (sum_ + luhn_from_right alternate (map digit_val l), alternate').
Proof.
  revert sum_ alternate. induction l as [| c l IH]; intros s a H.
  - exists a. simpl. do 2 f_equal. lia.
  - simpl in H. apply andb_prop in H as [Hc Hl].
    cbn [for_each]. unfold SwedenNationalIDRecognizer.checksum_step at 1.
    rewrite (int_char_digit c Hc). cbn [bind].
    destruct (IH (s + (if a
                       then if digit_val c * 2 >? 9
                            then digit_val c * 2 - 9 else digit_val c * 2
                       else digit_val c)) (negb a) Hl) as [a' ->].
    exists a'. cbn [map luhn_from_right]. unfold luhn_double.
    replace (2 * digit_val c) with (digit_val c * 2) by lia.
    do 2 f_equal. destruct a; lia.
Qed.

(** On digits, the Swedish validator returns the Luhn test of the last
    ten of them. *)
Lemma sweden_checksum_on_digits (national_id : str) :
  forallb isdigit_char national_id = true ->
  SwedenNationalIDRecognizer._is_valid_checksum national_id
  = Ok (luhn_sum (slice_from national_id (-10)) mod 10 =? 0).
Proof.
  intros H. unfold SwedenNationalIDRecognizer._is_valid_checksum, luhn_sum.
  assert (Hs : forallb isdigit_char (rev (slice_from national_id (-10))) = true).
  { rewrite forallb_forall in *. intros c Hc. apply H.
    apply in_rev in Hc. unfold slice_from in Hc.
    rewrite <- (firstn_skipn (Z.to_nat (clamp (len national_id) (-10))) national_id).
    apply in_or_app. right. exact Hc. }
  destruct (sweden_loop _ 0 false Hs) as [a' ->]. cbn [bind fst].
  rewrite map_rev. reflexivity.
Qed.

(** Whatever the text and the match, the Italian recognizer tests the
    entity type: without a context keyword every match of the default
    entity scores 0.0. *)
Lemma fiscal_code_analyze_ignores_matched_text (rnd : Q -> Q) (text : str)
  (a b : Z) (q : Q) :
  ItalyFiscalCodeRecognizer.context_found text = false ->
  ItalyFiscalCodeRecognizer.analyze_one rnd text
    (mkResult (lit "ITALY_FISCAL_CODE") a b q)
  = Ok (mkResult (lit "ITALY_FISCAL_CODE") a b 0).
Proof.
  intros H. unfold ItalyFiscalCodeRecognizer.analyze_one.
  cbn [entity_type].
  change (ItalyFiscalCodeRecognizer._validate_checksum
            (re_sub_class ItalyFiscalCodeRecognizer.not_upper_alnum
               (lit "ITALY_FISCAL_CODE")))
    with (@Ok bool false).
  cbn [bind]. rewrite H. reflexivity.
Qed.

(** * Further properties *)

(** ** Canadian driver's licence: what the overlap filter keeps *)

Lemma take_over_score (fr r : RecognizerResult) :
  (score fr <= score (CanadaDriversLicenceRecognizer.take_over fr r))%Q
  /\ (score r <= score (CanadaDriversLicenceRecognizer.take_over fr r))%Q.
Proof.
  unfold CanadaDriversLicenceRecognizer.take_over.
  destruct (Qltb (score fr) (score r)) eqn:E; cbn [score].
  - split; [apply Qlt_le_weak, Qltb_true, E | apply Qle_refl].
  - split; [apply Qle_refl | apply Qltb_false, E].
Qed.

Lemma merged_score (fr r : RecognizerResult) :
  (score fr <= score (merged r fr))%Q.
Proof.
  unfold merged. destruct (CanadaDriversLicenceRecognizer.overlaps fr r).
  - apply take_over_score.
  - apply Qle_refl.
Qed.

Lemma outer_step_keeps_scores (kept : list RecognizerResult)
  (r : RecognizerResult) (q : Q) :
  (exists o, In o kept /\ (q <= score o)%Q) ->
  exists o, In o (CanadaDriversLicenceRecognizer.outer_step kept r)
            /\ (q <= score o)%Q.
Proof.
  intros (o & Ho & Hq). exists (merged r o). split.
  - rewrite outer_step_merges. apply in_or_app. left. apply in_map, Ho.
  - apply Qle_trans with (score o); [exact Hq | apply merged_score].
Qed.

Lemma outer_step_covers_new (kept : list RecognizerResult) (r : RecognizerResult) :
  exists o, In o (CanadaDriversLicenceRecognizer.outer_step kept r)
            /\ (score r <= score o)%Q.
Proof.
  rewrite outer_step_merges.
  destruct (existsb (fun fr => CanadaDriversLicenceRecognizer.overlaps fr r) kept)
    eqn:E.
  - apply existsb_exists in E as (fr & Hfr & Ho).
    exists (merged r fr). split.
    + apply in_or_app. left. apply in_map, Hfr.
    + unfold merged. rewrite Ho. apply take_over_score.
  - exists r. split; [apply in_or_app; right; left; reflexivity | apply Qle_refl].
Qed.

Lemma analyze_keeps_scores_from (l kept : list RecognizerResult) (q : Q) :
  (exists o, In o kept /\ (q <= score o)%Q) ->
  exists o, In o (fold_left CanadaDriversLicenceRecognizer.outer_step l kept)
            /\ (q <= score o)%Q.
Proof.
  revert kept. induction l as [| r l IH]; intros kept H; cbn [fold_left].
  - exact H.
  - apply IH, outer_step_keeps_scores, H.
Qed.

(** X1. The Canadian overlap filter never loses the best score: for every
    candidate it is given, it returns a Result scoring at least as much. *)
Theorem overlap_filter_keeps_best_scores (results : list RecognizerResult)
  (r : RecognizerResult) :
  In r results ->
  exists o, In o (CanadaDriversLicenceRecognizer.analyze results)
            /\ (score r <= score o)%Q.
Proof.
  unfold CanadaDriversLicenceRecognizer.analyze.
  generalize (@nil RecognizerResult) as kept.
  induction results as [| x l IH]; intros kept H; [destruct H |].
  cbn [fold_left]. destruct H as [-> | H].
  - apply analyze_keeps_scores_from, outer_step_covers_new.
  - apply IH, H.
Qed.

Lemma overlap_filter_keeps_best_scores_witness :
  In (licence 4 12 (85 # 100)) [licence 0 8 (4 # 10); licence 4 12 (85 # 100)]
  /\ exists o,
       In o (CanadaDriversLicenceRecognizer.analyze
               [licence 0 8 (4 # 10); licence 4 12 (85 # 100)])
       /\ (score (licence 4 12 (85 # 100)) <= score o)%Q.
Proof.
  assert (H : In (licence 4 12 (85 # 100))
                [licence 0 8 (4 # 10); licence 4 12 (85 # 100)])
    by (right; left; reflexivity).
  split; [exact H |].
  exact (overlap_filter_keeps_best_scores _ _ H).
Defined.

Lemma merged_from_inputs (seen : list RecognizerResult) (r fr : RecognizerResult) :
  In r seen ->
  (exists x, In x seen /\ same_hit fr x) ->
  exists x, In x seen /\ same_hit (merged r fr) x.
Proof.
  intros Hr Hfr. unfold merged, CanadaDriversLicenceRecognizer.take_over.
  destruct (CanadaDriversLicenceRecognizer.overlaps fr r); [| exact Hfr].
  destruct (Qltb (score fr) (score r)); [| exact Hfr].
  exists r. split; [exact Hr | repeat split].
Qed.

Lemma overlap_filter_from_inputs_from (l seen kept : list RecognizerResult) :
  Forall (fun o => exists x, In x (seen ++ l) /\ same_hit o x) kept ->
  (length kept <= length seen)%nat ->
  Forall (fun o => exists x, In x (seen ++ l) /\ same_hit o x)
    (fold_left CanadaDriversLicenceRecognizer.outer_step l kept)
  /\ (length (fold_left CanadaDriversLicenceRecognizer.outer_step l kept)
      <= length (seen ++ l))%nat.
Proof.
  revert seen kept. induction l as [| r l IH]; intros seen kept H Hlen.
  - cbn [fold_left]. split; [exact H |]. rewrite length_app. lia.
  - cbn [fold_left].
    replace (seen ++ r :: l) with ((seen ++ [r]) ++ l) in *
      by (rewrite <- app_assoc; reflexivity).
    assert (Hr : In r ((seen ++ [r]) ++ l))
      by (apply in_or_app; left; apply in_or_app; right; left; reflexivity).
    apply IH.
    + rewrite outer_step_merges. apply Forall_app. split.
      * clear Hlen IH.
        induction H as [| fr kept' Hfr _ IHk]; cbn [map]; constructor.
        -- apply merged_from_inputs; assumption.
        -- exact IHk.
      * destruct (existsb _ kept); constructor; [| constructor].
        exists r. split; [exact Hr | repeat split].
    + rewrite outer_step_merges, !length_app, length_map.
      destruct (existsb _ kept); simpl; lia.
Qed.

(** X2. The Canadian overlap filter invents nothing: every Result it
    returns has the position and the score of one of the candidates, and
    it returns no more Results than it was given candidates. *)
Theorem overlap_filter_returns_input_hits (results : list RecognizerResult) :
  Forall (fun o => exists x, In x results /\ same_hit o x)
    (CanadaDriversLicenceRecognizer.analyze results)
  /\ (length (CanadaDriversLicenceRecognizer.analyze results)
      <= length results)%nat.
Proof.
  apply (overlap_filter_from_inputs_from results [] []).
  - constructor.
  - simpl. lia.
Qed.

(** ** PCI-DSS: deduplication and track data *)

Lemma unique_loop (l unique_results : list RecognizerResult)
  (seen_positions : gset (Z * Z)) :
  exists new seen',
    fold_left PCI_DSS_CreditCardAndTrackDataRecognizer.unique_step l
      (unique_results, seen_positions)
    = (unique_results ++ new, seen')
    /\ sublist new l
    /\ List.NoDup (map span new)
    /\ (forall r, In r new -> span r ∉ seen_positions)
    /\ (forall r, In r l -> span r ∈ seen_positions \/ In (span r) (map span new))
    /\ (List.NoDup (map span l) -> (forall r, In r l -> span r ∉ seen_positions) ->
        new = l).
Proof.
  revert unique_results seen_positions.
  induction l as [| r l IH]; intros u s; cbn [fold_left].
  - exists [], s. rewrite app_nil_r.
    split; [reflexivity |]. split; [constructor |]. split; [constructor |].
    split; [intros x [] |]. split; [intros x [] | reflexivity].
  - unfold PCI_DSS_CreditCardAndTrackDataRecognizer.unique_step at 2.
    fold (span r).
    destruct (bool_decide (span r ∈ s)) eqn:E.
    + apply bool_decide_eq_true in E.
      destruct (IH u s) as (new & s' & -> & Hsub & Hnd & Hout & Hcov & Hid).
      exists new, s'. repeat split; try assumption.
      * apply sublist_cons, Hsub.
      * intros x [<- | Hx]; [left; exact E | apply Hcov, Hx].
      * intros _ Hfresh. exfalso. apply (Hfresh r); [left; reflexivity | exact E].
    + apply bool_decide_eq_false in E.
      destruct (IH (u ++ [r]) ({[span r]} ∪ s))
        as (new & s' & -> & Hsub & Hnd & Hout & Hcov & Hid).
      exists (r :: new), s'. rewrite <- app_assoc. repeat split.
      * apply sublist_skip, Hsub.
      * cbn [map]. constructor; [| exact Hnd].
        intros Hin. apply in_map_iff in Hin as (x & Hx & Hxin).
        apply (Hout x Hxin). rewrite Hx. set_solver.
      * intros x [<- | Hx]; [exact E |].
        intros Hs. apply (Hout x Hx). set_solver.
      * intros x [<- | Hx]; [right; left; reflexivity |].
        destruct (Hcov x Hx) as [Hs | Hn].
        -- apply elem_of_union in Hs as [Hs | Hs].
           ++ apply elem_of_singleton in Hs. right. left. symmetry. exact Hs.
           ++ left. exact Hs.
        -- right. right. exact Hn.
      * intros Hnd' Hfresh. cbn [map] in Hnd'.
        apply List.NoDup_cons_iff in Hnd' as [Hr Hnd'].
        f_equal. apply Hid; [exact Hnd' |].
        intros x Hx Hs. apply elem_of_union in Hs as [Hs | Hs].
        -- apply elem_of_singleton in Hs. apply Hr. rewrite <- Hs.
           apply in_map, Hx.
        -- apply (Hfresh x); [right; exact Hx | exact Hs].
Qed.

(** X3. [filter_unique_results] keeps the first Result of every position:
    what it returns is a sub-list of its input, in order, with no two
    Results at the same (start, end), and every position of the input is
    still there. *)
Theorem filter_unique_results_keeps_one_per_position
  (results : list RecognizerResult) :
  sublist (PCI_DSS_CreditCardAndTrackDataRecognizer.filter_unique_results results)
    results
  /\ List.NoDup
       (map span
          (PCI_DSS_CreditCardAndTrackDataRecognizer.filter_unique_results results))
  /\ forall r, In r results ->
       In (span r)
         (map span
            (PCI_DSS_CreditCardAndTrackDataRecognizer.filter_unique_results
               results)).
Proof.
  unfold PCI_DSS_CreditCardAndTrackDataRecognizer.filter_unique_results.
  destruct (unique_loop results [] ∅) as (new & s' & -> & Hsub & Hnd & _ & Hcov & _).
  cbn [fst app]. repeat split; try assumption.
  intros r Hr. destruct (Hcov r Hr) as [Hs | Hn]; [| exact Hn].
  exfalso. exact (not_elem_of_empty (C := gset (Z * Z)) _ Hs).
Qed.

Lemma filter_unique_results_distinct (results : list RecognizerResult) :
  List.NoDup (map span results) ->
  PCI_DSS_CreditCardAndTrackDataRecognizer.filter_unique_results results = results.
Proof.
  intros H.
  unfold PCI_DSS_CreditCardAndTrackDataRecognizer.filter_unique_results.
  destruct (unique_loop results [] ∅) as (new & s' & -> & _ & _ & _ & _ & Hid).
  cbn [fst app]. apply Hid; [exact H |].
  intros r _. apply not_elem_of_empty.
Qed.

(** X4. Deduplicating twice changes nothing: [filter_unique_results] applied
    to its own result returns it unchanged. *)
Theorem filter_unique_results_idempotent (results : list RecognizerResult) :
  PCI_DSS_CreditCardAndTrackDataRecognizer.filter_unique_results
    (PCI_DSS_CreditCardAndTrackDataRecognizer.filter_unique_results results)
  = PCI_DSS_CreditCardAndTrackDataRecognizer.filter_unique_results results.
Proof.
  apply filter_unique_results_distinct.
  unfold PCI_DSS_CreditCardAndTrackDataRecognizer.filter_unique_results.
  destruct (unique_loop results [] ∅) as (new & s' & -> & _ & Hnd & _).
  exact Hnd.
Qed.

Lemma track_loop (rnd : Q -> Q) (text : str) (matches : list (Z * Z))
  (acc : list RecognizerResult) :
  for_each (PCI_DSS_CreditCardAndTrackDataRecognizer.track_step rnd text)
    acc matches
  = Ok (acc
        ++ map (fun m => mkResult (lit "CREDIT_CARD_TRACK_DATA") (fst m) (snd m)
                           (rnd (9 # 10)))
             (List.filter (fun m => luhn_ok (slice text (fst m) (snd m))) matches)).
Proof.
  revert acc. induction matches as [| [a b] ms IH]; intros acc.
  - simpl. rewrite app_nil_r. reflexivity.
  - cbn [for_each List.filter fst snd].
    unfold PCI_DSS_CreditCardAndTrackDataRecognizer.track_step at 1.
    unfold PCI_DSS_CreditCardAndTrackDataRecognizer.validate_ccn.
    rewrite validate_ccn_luhn. fold (luhn_ok (slice text a b)). cbn [bind].
    destruct (luhn_ok (slice text a b)); cbn [bind List.filter map]; rewrite IH.
    + rewrite <- app_assoc. reflexivity.
    + reflexivity.
Qed.

(** X5. [detect_track_data] never raises, whatever spans the pattern
    matched: it returns, in order, one Result of score 0.9 for each match
    whose digits pass the Luhn test, and nothing for the others. *)
Theorem detect_track_data_keeps_luhn_valid_matches (rnd : Q -> Q) (text : str)
  (matches : list (Z * Z)) :
  PCI_DSS_CreditCardAndTrackDataRecognizer.detect_track_data rnd text matches
  = Ok (map (fun m => mkResult (lit "CREDIT_CARD_TRACK_DATA") (fst m) (snd m)
                        (rnd (9 # 10)))
          (List.filter (fun m => luhn_ok (slice text (fst m) (snd m))) matches)).
Proof. apply (track_loop rnd text matches []). Qed.

(** X6. When the patterns matched anything, the PCI-DSS recognizer returns
    the first pattern match alone and never a track-data hit; track data
    is reported, first valid hit only, when no pattern matched. *)
Theorem pci_dss_pattern_match_hides_track_data (rnd : Q -> Q) (text : str)
  (r : RecognizerResult) (results : list RecognizerResult)
  (matches : list (Z * Z)) :
  PCI_DSS_CreditCardAndTrackDataRecognizer.analyze rnd text (r :: results) matches
  = Ok [r]
  /\ PCI_DSS_CreditCardAndTrackDataRecognizer.analyze rnd text [] matches
     = Ok (firstn 1
             (map (fun m => mkResult (lit "CREDIT_CARD_TRACK_DATA") (fst m) (snd m)
                              (rnd (9 # 10)))
                (List.filter (fun m => luhn_ok (slice text (fst m) (snd m)))
                   matches))).
Proof.
  unfold PCI_DSS_CreditCardAndTrackDataRecognizer.analyze,
    PCI_DSS_CreditCardAndTrackDataRecognizer.detect_track_data.
  rewrite (track_loop rnd text matches []). cbn [app bind].
  set (found := map _ (List.filter _ matches)).
  split.
  - replace (match found with [] => r :: results | _ :: _ => r :: results ++ found end)
      with (r :: results ++ found)
      by (destruct found; [rewrite app_nil_r |]; reflexivity).
    pose proof (first_unique_is_first (r :: results ++ found)) as H.
    cbn [firstn] in H.
    destruct (PCI_DSS_CreditCardAndTrackDataRecognizer.filter_unique_results
                (r :: results ++ found)) as [| first rest];
      [discriminate H | injection H as ->; reflexivity].
  - replace (match found with [] => [] | _ :: _ => found end) with found
      by (destruct found; reflexivity).
    pose proof (first_unique_is_first found) as H.
    destruct (PCI_DSS_CreditCardAndTrackDataRecognizer.filter_unique_results found)
      as [| first rest]; destruct found as [| f fs]; cbn [firstn] in *;
      try discriminate H; [reflexivity | injection H as ->; reflexivity].
Qed.

(** ** Track data: what meets the quorum *)

Lemma track_analyze_quorum (rnd : Q -> Q) (text : str)
  (results : list RecognizerResult) (nlp_artifacts : option NlpArtifacts) :
  CCTrackDataRecognizer.analyze rnd text results nlp_artifacts
  = Ok (if (correlated_hits (validated_hits rnd text results nlp_artifacts) <? 3)%nat
        then []
        else validated_hits rnd text results nlp_artifacts).
Proof.
  unfold CCTrackDataRecognizer.analyze.
  rewrite add_persons_candidates, count_loop. cbn [bind app].
  fold (validated_hits rnd text results nlp_artifacts).
  set (k := correlated_hits (validated_hits rnd text results nlp_artifacts)).
  destruct (k <? 3)%nat eqn:E.
  - apply Nat.ltb_lt in E.
    destruct (0 + Z.of_nat k >=? 3) eqn:F; [| reflexivity].
    apply Z.geb_le in F. lia.
  - apply Nat.ltb_ge in E.
    destruct (0 + Z.of_nat k >=? 3) eqn:F; [reflexivity |].
    rewrite Z.geb_leb in F. apply Z.leb_gt in F. lia.
Qed.

Lemma persons_are_validated_hits (rnd : Q -> Q) (text : str) (es : list Entity) :
  List.filter (validated text) (map (person_result rnd) es)
  = map (person_result rnd) es
  /\ correlated_hits (map (person_result rnd) es) = length es.
Proof.
  unfold correlated_hits. induction es as [| e es [IH1 IH2]]; [split; reflexivity |].
  cbn [map List.filter].
  change (validated text (person_result rnd e)) with true.
  change (CCTrackDataRecognizer.is_track_data_hit (person_result rnd e)) with true.
  cbn [length]. rewrite IH1, IH2. split; reflexivity.
Qed.

Lemma correlated_hits_app (a b : list RecognizerResult) :
  correlated_hits (a ++ b) = (correlated_hits a + correlated_hits b)%nat.
Proof. unfold correlated_hits. rewrite List.filter_app, length_app. reflexivity. Qed.

(** X7. Person names alone meet the quorum of the track-data recognizer:
    when the NLP engine detected at least three person names, [analyze]
    returns a PERSON Result for each of them, whatever the text and the
    pattern matches are. *)
Theorem three_person_names_meet_quorum (rnd : Q -> Q) (text : str)
  (results : list RecognizerResult) (nlp_artifacts : option NlpArtifacts) :
  (3 <= length (detected_persons nlp_artifacts))%nat ->
  exists out,
    CCTrackDataRecognizer.analyze rnd text results nlp_artifacts = Ok out
    /\ forall e, In e (detected_persons nlp_artifacts) ->
                 In (person_result rnd e) out.
Proof.
  intros H. rewrite track_analyze_quorum.
  unfold validated_hits, track_candidates.
  rewrite List.filter_app.
  destruct (persons_are_validated_hits rnd text (detected_persons nlp_artifacts))
    as [-> Hc].
  rewrite correlated_hits_app, Hc.
  destruct (_ <? 3)%nat eqn:E; [apply Nat.ltb_lt in E; lia |].
  eexists. split; [reflexivity |].
  intros e He. apply in_or_app. right. apply in_map, He.
Qed.

Lemma three_person_names_meet_quorum_witness :
  (3 <= length (detected_persons three_names))%nat
  /\ exists out,
       CCTrackDataRecognizer.analyze exact (lit "Ann and Bob and Cyd") []
         three_names = Ok out
       /\ forall e, In e (detected_persons three_names) ->
                    In (person_result exact e) out.
Proof.
  assert (H : (3 <= length (detected_persons three_names))%nat)
    by (vm_compute; lia).
  split; [exact H |].
  exact (three_person_names_meet_quorum exact (lit "Ann and Bob and Cyd") []
           three_names H).
Defined.

Lemma filter_sublist {A : Type} (p : A -> bool) (l : list A) :
  sublist (List.filter p l) l.
Proof.
  induction l as [| x l IH]; cbn [List.filter]; [constructor |].
  destruct (p x); [apply sublist_skip | apply sublist_cons]; exact IH.
Qed.

(** X8. The track-data recognizer never returns one or two Results: it
    always returns, and what it returns is empty or holds at least three
    Results, taken in order from the pattern matches and person names. *)
Theorem track_data_returns_none_or_three (rnd : Q -> Q) (text : str)
  (results : list RecognizerResult) (nlp_artifacts : option NlpArtifacts) :
  exists out,
    CCTrackDataRecognizer.analyze rnd text results nlp_artifacts = Ok out
    /\ (out = [] \/ (3 <= length out)%nat)
    /\ sublist out (track_candidates rnd results nlp_artifacts).
Proof.
  rewrite track_analyze_quorum.
  destruct (_ <? 3)%nat eqn:E.
  - exists []. split; [reflexivity |]. split; [left; reflexivity |].
    apply sublist_nil_l.
  - eexists. split; [reflexivity |]. split.
    + right. apply Nat.ltb_ge in E. unfold correlated_hits in E.
      pose proof (sublist_length _ _
                    (filter_sublist CCTrackDataRecognizer.is_track_data_hit
                       (validated_hits rnd text results nlp_artifacts))).
      lia.
    + apply filter_sublist.
Qed.

(** ** Luhn on arbitrary strings *)

(** X9. [validate_ccn] never raises: on every string it returns the Luhn
    test of the digits of the string, so any other character, a letter
    as well as a separator, is ignored. *)
Theorem validate_ccn_reads_digits_only (ccn : str) :
  Luhn.validate_ccn ccn = Ok (luhn_ok ccn)
  /\ Luhn.validate_ccn (re_sub_class Luhn.non_digit ccn) = Luhn.validate_ccn ccn.
Proof.
  split; [apply validate_ccn_luhn |].
  rewrite !validate_ccn_luhn.
  rewrite (digits_kept_by_non_digit _ (non_digits_removed ccn)). reflexivity.
Qed.

Lemma stripped_twice (cls : ascii -> bool) (t : str) :
  re_sub_class cls (re_sub_class cls t) = re_sub_class cls t.
Proof.
  apply re_sub_class_id. unfold re_sub_class.
  induction t as [| c t IH]; cbn [List.filter forallb]; [reflexivity |].
  destruct (negb (cls c)) eqn:E; cbn [forallb]; [rewrite E |]; exact IH.
Qed.

Lemma is_valid_credit_card_any (card_number : str) :
  AllCreditCardNumberRecognizer._is_valid_credit_card card_number
  = Ok (isdigit (re_sub_class AllCreditCardNumberRecognizer.space_or_dash
                   card_number)
        && (luhn_sum (re_sub_class AllCreditCardNumberRecognizer.space_or_dash
                        card_number) mod 10 =? 0)).
Proof.
  pose proof (stripped_twice AllCreditCardNumberRecognizer.space_or_dash
                card_number) as Ht.
  set (t := re_sub_class AllCreditCardNumberRecognizer.space_or_dash card_number)
    in *.
  destruct (isdigit t) eqn:E; cbn [andb].
  - pose proof (is_valid_credit_card_luhn t E) as L.
    unfold AllCreditCardNumberRecognizer._is_valid_credit_card in *.
    rewrite Ht in L. fold t. exact L.
  - unfold AllCreditCardNumberRecognizer._is_valid_credit_card.
    fold t. rewrite E. reflexivity.
Qed.


Lemma same_stripping (t : str) :
  forallb (fun c => isdigit_char c
                    || AllCreditCardNumberRecognizer.space_or_dash c) t = true ->
  re_sub_class AllCreditCardNumberRecognizer.space_or_dash t
  = re_sub_class Luhn.non_digit t.
Proof.
  unfold re_sub_class, Luhn.non_digit.
  induction t as [| c t IH]; cbn [forallb List.filter]; [reflexivity |].
  intros H. apply andb_prop in H as [Hc Ht]. rewrite (IH Ht).
  destruct (isdigit_char c) eqn:D.
  - unfold AllCreditCardNumberRecognizer.space_or_dash.
    rewrite (digit_not_space c D). destruct (digit_not_sign c D) as [-> _].
    reflexivity.
  - cbn [orb] in Hc. rewrite Hc. reflexivity.
Qed.

Lemma stripped_has_digit (t : str) :
  existsb isdigit_char t = true ->
  isdigit (re_sub_class Luhn.non_digit t) = true.
Proof.
  intros H.
  assert (Hne : re_sub_class Luhn.non_digit t <> []).
  { unfold re_sub_class, Luhn.non_digit.
    induction t as [| c t IH]; cbn [existsb List.filter] in *; [discriminate |].
    destruct (isdigit_char c); cbn [negb]; [discriminate |]. apply IH, H. }
  pose proof (non_digits_removed t) as Hd.
  destruct (re_sub_class Luhn.non_digit t); [contradiction | exact Hd].
Qed.

(** X11. On a card number written with digits, spaces and dashes, with at
    least one digit, the two Luhn validators agree. *)
Theorem luhn_validators_agree_on_card_numbers (t : str) :
  forallb (fun c => isdigit_char c
                    || AllCreditCardNumberRecognizer.space_or_dash c) t = true ->
  existsb isdigit_char t = true ->
  AllCreditCardNumberRecognizer._is_valid_credit_card t = Luhn.validate_ccn t.
Proof.
  intros Hc Hd.
  rewrite is_valid_credit_card_any, validate_ccn_luhn, (same_stripping t Hc),
    (stripped_has_digit t Hd). reflexivity.
Qed.

Lemma luhn_validators_agree_on_card_numbers_witness :
  forallb (fun c => isdigit_char c
                    || AllCreditCardNumberRecognizer.space_or_dash c)
    (lit "4111 1111-1111 1111") = true
  /\ existsb isdigit_char (lit "4111 1111-1111 1111") = true
  /\ AllCreditCardNumberRecognizer._is_valid_credit_card (lit "4111 1111-1111 1111")
     = Luhn.validate_ccn (lit "4111 1111-1111 1111").
Proof.
  split; [reflexivity |]. split; [reflexivity |].
  apply luhn_validators_agree_on_card_numbers; reflexivity.
Defined.

(** ** Luhn: a wrong digit is detected *)

Lemma luhn_from_right_middle (l1 l2 : list Z) (b : bool) (d : Z) :
  luhn_from_right b (l1 ++ d :: l2)
  = luhn_from_right b l1
    + (if xorb b (Z.odd (len l1)) then luhn_double d else d)
    + luhn_from_right (negb (xorb b (Z.odd (len l1)))) l2.
Proof.
  revert b. induction l1 as [| x l1 IH]; intros b; cbn [app luhn_from_right].
  - change (len (@nil Z)) with 0. cbn [Z.odd]. rewrite xorb_false_r. lia.
  - rewrite IH, len_cons.
    replace (Z.odd (len l1 + 1)) with (negb (Z.odd (len l1)))
      by (rewrite Z.add_1_r, Z.odd_succ, Z.negb_odd; reflexivity).
    replace (xorb (negb b) (Z.odd (len l1)))
      with (xorb b (negb (Z.odd (len l1))))
      by (destruct b, (Z.odd (len l1)); reflexivity).
    lia.
Qed.

Lemma luhn_double_range (d : Z) : 0 <= d <= 9 -> 0 <= luhn_double d <= 9.
Proof. unfold luhn_double. intros H. destruct (Z.gtb_spec (2 * d) 9); lia. Qed.

Lemma luhn_double_injective (d e : Z) :
  0 <= d <= 9 -> 0 <= e <= 9 -> luhn_double d = luhn_double e -> d = e.
Proof.
  unfold luhn_double. intros Hd He.
  destruct (Z.gtb_spec (2 * d) 9), (Z.gtb_spec (2 * e) 9); lia.
Qed.

Lemma digit_val_injective (c c' : ascii) :
  isdigit_char c = true -> isdigit_char c' = true ->
  digit_val c = digit_val c' -> c = c'.
Proof.
  intros Hc Hc' H. unfold digit_val, ord in H.
  assert (E : N_of_ascii c = N_of_ascii c') by lia.
  rewrite <- (ascii_N_embedding c), <- (ascii_N_embedding c'), E. reflexivity.
Qed.

Lemma luhn_sum_one_digit_apart (pre suf : str) (c c' : ascii) :
  forallb isdigit_char pre = true -> forallb isdigit_char suf = true ->
  isdigit_char c = true -> isdigit_char c' = true -> c <> c' ->
  exists k,
    luhn_sum (pre ++ c' :: suf) = luhn_sum (pre ++ c :: suf) + k
    /\ -9 <= k <= 9 /\ k <> 0.
Proof.
  intros _ _ Hc Hc' Hne. unfold luhn_sum.
  rewrite !map_app. cbn [map]. rewrite !rev_app_distr. cbn [rev].
  rewrite <- !app_assoc. cbn [app]. rewrite !luhn_from_right_middle.
  cbn [xorb].
  pose proof (digit_val_range c Hc) as R.
  pose proof (digit_val_range c' Hc') as R'.
  assert (Hv : digit_val c <> digit_val c')
    by (intros E; apply Hne, digit_val_injective; assumption).
  destruct (Z.odd (len (rev (map digit_val suf)))).
  - exists (luhn_double (digit_val c') - luhn_double (digit_val c)).
    pose proof (luhn_double_range _ R). pose proof (luhn_double_range _ R').
    split; [lia |]. split; [lia |].
    intros E. apply Hv, luhn_double_injective; [assumption .. | lia].
  - exists (digit_val c' - digit_val c). split; [lia |]. split; lia.
Qed.

(** X12. The Luhn test catches any single wrong digit: when a string of
    digits is accepted by [validate_ccn], the string with one digit
    replaced by a different digit is rejected. *)
Theorem luhn_detects_one_wrong_digit (pre suf : str) (c c' : ascii) :
  forallb isdigit_char pre = true ->
  forallb isdigit_char suf = true ->
  isdigit_char c = true ->
  isdigit_char c' = true ->
  c <> c' ->
  Luhn.validate_ccn (pre ++ c :: suf) = Ok true ->
  Luhn.validate_ccn (pre ++ c' :: suf) = Ok false.
Proof.
  intros Hp Hs Hc Hc' Hne.
  assert (Hd : forall x, isdigit_char x = true ->
                         forallb isdigit_char (pre ++ x :: suf) = true).
  { intros x Hx. rewrite forallb_app. cbn [forallb]. rewrite Hp, Hx, Hs.
    reflexivity. }
  rewrite !validate_ccn_luhn.
  rewrite (digits_kept_by_non_digit _ (Hd c Hc)),
    (digits_kept_by_non_digit _ (Hd c' Hc')).
  destruct (luhn_sum_one_digit_apart pre suf c c' Hp Hs Hc Hc' Hne)
    as (k & -> & Hk & Hk0).
  intros [= E]. f_equal. apply Z.eqb_eq in E. apply Z.eqb_neq.
  intros E'. apply Z.mod_divide in E; [| lia]. apply Z.mod_divide in E'; [| lia].
  destruct E as [m Hm]. destruct E' as [m' Hm']. lia.
Qed.

Lemma luhn_detects_one_wrong_digit_witness :
  forallb isdigit_char (lit "411111111111111") = true
  /\ forallb isdigit_char [] = true
  /\ isdigit_char "1" = true
  /\ isdigit_char "2" = true
  /\ "1"%char <> "2"%char
  /\ Luhn.validate_ccn (lit "411111111111111" ++ ["1"%char]) = Ok true
  /\ Luhn.validate_ccn (lit "411111111111111" ++ ["2"%char]) = Ok false.
Proof.
  assert (Hne : "1"%char <> "2"%char) by discriminate.
  assert (Hv : Luhn.validate_ccn (lit "411111111111111" ++ ["1"%char]) = Ok true)
    by (vm_compute; reflexivity).
  repeat (split; [reflexivity || assumption |]).
  exact (luhn_detects_one_wrong_digit (lit "411111111111111") [] "1" "2"
           eq_refl eq_refl eq_refl eq_refl Hne Hv).
Defined.

(** ** The issuer recognizer: a Luhn filter *)

Lemma issuer_loop (text : str) (results valid_results : list RecognizerResult) :
  for_each (CreditCardIssuerRecognizer.analyze_step text) valid_results results
  = Ok (valid_results
        ++ List.filter (fun r => luhn_ok (matched_text text r)) results).
Proof.
  revert valid_results. induction results as [| r l IH]; intros acc.
  - simpl. rewrite app_nil_r. reflexivity.
  - cbn [for_each List.filter].
    unfold CreditCardIssuerRecognizer.analyze_step at 1.
    unfold CreditCardIssuerRecognizer.validate_result.
    rewrite (luhn_checksum_digits _ (non_digits_removed (matched_text text r))).
    fold (luhn_ok (matched_text text r)). cbn [bind].
    destruct (luhn_ok (matched_text text r)); cbn [bind]; rewrite IH.
    + rewrite <- app_assoc. reflexivity.
    + reflexivity.
Qed.

(** X13. The issuer recognizer returns exactly the pattern matches whose
    digits pass the Luhn test, in their order and with their scores
    unchanged; it never raises. *)
Theorem issuer_analyze_keeps_luhn_valid_matches (text : str)
  (results : list RecognizerResult) :
  CreditCardIssuerRecognizer.analyze text results
  = Ok (List.filter (fun r => luhn_ok (matched_text text r)) results).
Proof. apply (issuer_loop text results []). Qed.

(** ** The credit-card recognizer: what [analyze] returns *)



(** ** Spanish DNI: errors and wrong digits *)

Lemma int_returns_or_ValueError (t : str) :
  (exists n, int t = Ok n) \/ int t = Raise ValueError.
Proof.
  unfold int.
  destruct (match strip t with [] => None | _ => _ end) as [n |];
    [left; exists n | right]; reflexivity.
Qed.

(** X15. The DNI validator raises on the empty string only: on every
    other string, digits or not, it returns a boolean. *)
Theorem dni_checksum_returns_unless_empty (dni : str) :
  (exists b, SpainDNIRecognizer._validate_dni_checksum dni = Ok b) <-> dni <> [].
Proof.
  split.
  - intros [b H] ->. vm_compute in H. discriminate H.
  - intros Hne. destruct (exists_last Hne) as (init & last & ->).
    unfold SpainDNIRecognizer._validate_dni_checksum.
    rewrite slice_to_all_but_last, index_last. cbn [bind].
    destruct (int_returns_or_ValueError init) as [[n ->] | ->]; cbn [bind].
    + destruct (index_in_range SpainDNIRecognizer.valid_letters (n mod 23))
        as (x & -> & _).
      * change (len SpainDNIRecognizer.valid_letters) with 23.
        apply Z.mod_pos_bound. lia.
      * eexists. reflexivity.
    + eexists. reflexivity.
Qed.

Lemma decimal_value_app (a b : str) :
  decimal_value (a ++ b) = decimal_value a * 10 ^ len b + decimal_value b.
Proof.
  induction a as [| c a IH]; cbn [app decimal_value]; [lia |].
  rewrite IH. unfold len. rewrite length_app, Nat2Z.inj_add, Z.pow_add_r by lia.
  lia.
Qed.

Lemma decimal_value_one_digit_apart (pre suf : str) (c c' : ascii) :
  decimal_value (pre ++ c :: suf) - decimal_value (pre ++ c' :: suf)
  = (digit_val c - digit_val c') * 10 ^ len suf.
Proof. rewrite !decimal_value_app. cbn [decimal_value]. rewrite !len_cons. ring. Qed.

(** A modulus [p] prime to 10 divides [x * 10 ^ k] only if it divides [x]. *)
Lemma divide_times_power_of_10 (p a b x : Z) (k : nat) :
  10 * a = b * p + 1 -> (p | x * 10 ^ Z.of_nat k) -> (p | x).
Proof.
  intros Hinv. induction k as [| k IH]; intros H.
  - simpl in H. rewrite Z.mul_1_r in H. exact H.
  - apply IH. rewrite Nat2Z.inj_succ, Z.pow_succ_r in H by lia.
    destruct H as [m Hm]. exists (a * m - b * (x * 10 ^ Z.of_nat k)).
    set (y := x * 10 ^ Z.of_nat k).
    assert (H10 : 10 * y = m * p) by (unfold y; rewrite <- Hm; ring).
    replace ((a * m - b * y) * p) with (a * (m * p) - (b * p) * y) by ring.
    rewrite <- H10. replace (b * p) with (10 * a - 1) by lia. ring.
Qed.

Lemma same_residue_one_digit_apart (p a b : Z) (pre suf : str) (c c' : ascii) :
  10 * a = b * p + 1 -> 9 < p ->
  isdigit_char c = true -> isdigit_char c' = true -> c <> c' ->
  decimal_value (pre ++ c :: suf) mod p <> decimal_value (pre ++ c' :: suf) mod p.
Proof.
  intros Hinv Hp Hc Hc' Hne E.
  assert (Hd : (p | decimal_value (pre ++ c :: suf)
                    - decimal_value (pre ++ c' :: suf))).
  { apply Z.mod_divide; [lia |]. rewrite Zminus_mod, E, Z.sub_diag.
    apply Z.mod_0_l. lia. }
  rewrite decimal_value_one_digit_apart in Hd.
  apply (divide_times_power_of_10 p a b _ (length suf) Hinv) in Hd.
  pose proof (digit_val_range c Hc). pose proof (digit_val_range c' Hc').
  assert (digit_val c <> digit_val c')
    by (intros Ev; apply Hne, digit_val_injective; assumption).
  destruct Hd as [m Hm].
  assert (Hcases : m = 0 \/ 1 <= m \/ m <= -1) by lia.
  destruct Hcases as [-> | [Hm1 | Hm1]]; [lia | |].
  - assert (p <= m * p) by nia. lia.
  - assert (m * p <= - p) by nia. lia.
Qed.

Lemma valid_letters_distinct (i j : nat) (x : ascii) :
  nth_error SpainDNIRecognizer.valid_letters i = Some x ->
  nth_error SpainDNIRecognizer.valid_letters j = Some x ->
  i = j.
Proof.
  intros Hi Hj.
  assert (Hnd : List.NoDup SpainDNIRecognizer.valid_letters).
  { unfold SpainDNIRecognizer.valid_letters, lit. cbn.
    repeat (constructor; [cbn; intuition discriminate |]). constructor. }
  apply (proj1 (List.NoDup_nth_error _) Hnd).
  - apply nth_error_Some. rewrite Hi. discriminate.
  - rewrite Hi, Hj. reflexivity.
Qed.

Lemma dni_checksum_on_digits (ds : str) (c : ascii) :
  ds <> [] -> forallb isdigit_char ds = true ->
  exists x,
    nth_error SpainDNIRecognizer.valid_letters
      (Z.to_nat (decimal_value ds mod 23)) = Some x
    /\ SpainDNIRecognizer._validate_dni_checksum (ds ++ [c]) = Ok (eqb_char x c).
Proof.
  intros Hne Hd. unfold SpainDNIRecognizer._validate_dni_checksum.
  rewrite slice_to_all_but_last, index_last. cbn [bind].
  rewrite (int_of_digits ds Hne Hd). cbn [bind].
  destruct (index_in_range SpainDNIRecognizer.valid_letters
              (decimal_value ds mod 23)) as (x & -> & Hx).
  - change (len SpainDNIRecognizer.valid_letters) with 23.
    apply Z.mod_pos_bound. lia.
  - exists x. split; [exact Hx | reflexivity].
Qed.

(** X16. The DNI check letter catches any single wrong digit: when a
    number with its letter is accepted, the number with one digit
    replaced by a different digit is rejected with that letter. *)
Theorem dni_detects_one_wrong_digit (pre suf : str) (c c' letter : ascii) :
  forallb isdigit_char pre = true ->
  forallb isdigit_char suf = true ->
  isdigit_char c = true ->
  isdigit_char c' = true ->
  c <> c' ->
  SpainDNIRecognizer._validate_dni_checksum ((pre ++ c :: suf) ++ [letter])
  = Ok true ->
  SpainDNIRecognizer._validate_dni_checksum ((pre ++ c' :: suf) ++ [letter])
  = Ok false.
Proof.
  intros Hp Hs Hc Hc' Hne.
  assert (Hd : forall x, isdigit_char x = true ->
                         forallb isdigit_char (pre ++ x :: suf) = true).
  { intros x Hx. rewrite forallb_app. cbn [forallb]. rewrite Hp, Hx, Hs.
    reflexivity. }
  assert (Hn : forall x, pre ++ x :: suf <> [])
    by (intros x; destruct pre; discriminate).
  destruct (dni_checksum_on_digits _ letter (Hn c) (Hd c Hc)) as (x & Hx & ->).
  destruct (dni_checksum_on_digits _ letter (Hn c') (Hd c' Hc')) as (x' & Hx' & ->).
  intros [= E]. f_equal. apply eqb_char_eq in E. subst x.
  destruct (eqb_char x' letter) eqn:E'; [| reflexivity].
  apply eqb_char_eq in E'. subst x'. exfalso.
  pose proof (valid_letters_distinct _ _ _ Hx Hx') as Hij.
  apply (same_residue_one_digit_apart 23 7 3 pre suf c c'); try assumption; try lia.
  pose proof (Z.mod_pos_bound (decimal_value (pre ++ c :: suf)) 23 ltac:(lia)).
  pose proof (Z.mod_pos_bound (decimal_value (pre ++ c' :: suf)) 23 ltac:(lia)).
  lia.
Qed.

Lemma dni_detects_one_wrong_digit_witness :
  forallb isdigit_char (lit "1234") = true
  /\ forallb isdigit_char (lit "678") = true
  /\ isdigit_char "5" = true
  /\ isdigit_char "0" = true
  /\ "5"%char <> "0"%char
  /\ SpainDNIRecognizer._validate_dni_checksum
       ((lit "1234" ++ "5"%char :: lit "678") ++ ["Z"%char]) = Ok true
  /\ SpainDNIRecognizer._validate_dni_checksum
       ((lit "1234" ++ "0"%char :: lit "678") ++ ["Z"%char]) = Ok false.
Proof.
  assert (Hne : "5"%char <> "0"%char) by discriminate.
  assert (Hv : SpainDNIRecognizer._validate_dni_checksum
                 ((lit "1234" ++ "5"%char :: lit "678") ++ ["Z"%char]) = Ok true)
    by (vm_compute; reflexivity).
  repeat (split; [reflexivity || assumption |]).
  exact (dni_detects_one_wrong_digit (lit "1234") (lit "678") "5" "0" "Z"
           eq_refl eq_refl eq_refl eq_refl Hne Hv).
Defined.

(** ** Dutch national ID: what is read, what raises, what is detected *)

Lemma int_char_non_digit (c : ascii) :
  isdigit_char c = false -> int_char c = Raise ValueError.
Proof. each_char c. Qed.

Lemma index_past_end {A : Type} (l : list A) (i : Z) :
  len l <= i -> index l i = Raise IndexError.
Proof.
  intros H. pose proof (len_nonneg l). unfold index.
  assert (E : (i <? 0) = false) by (apply Z.ltb_ge; lia).
  rewrite !E.
  destruct (nth_error l (Z.to_nat i)) eqn:N; [| reflexivity].
  assert (Hlt : (Z.to_nat i < length l)%nat)
    by (apply nth_error_Some; rewrite N; discriminate).
  unfold len in H. lia.
Qed.

Lemma netherlands_loop_within (suf pre tail : str) (total_sum multiplier : Z) :
  forallb isdigit_char suf = true ->
  for_each (NetherlandsNationalIDRecognizer.checksum_step (pre ++ suf ++ tail))
    (total_sum, multiplier) (map Z.of_nat (seq (length pre) (length suf)))
  = Ok (total_sum + weighted_sum multiplier suf, multiplier - len suf).
Proof.
  revert pre total_sum multiplier.
  induction suf as [| c r IH]; intros pre t m H.
  - simpl. do 2 f_equal; unfold len; simpl; lia.
  - simpl in H. apply andb_prop in H as [Hc Hr].
    cbn [length seq map for_each app].
    unfold NetherlandsNationalIDRecognizer.checksum_step at 1.
    rewrite index_middle. cbn [bind].
    rewrite (int_char_digit c Hc). cbn [bind].
    replace (pre ++ c :: r ++ tail) with ((pre ++ [c]) ++ r ++ tail)
      by (rewrite <- app_assoc; reflexivity).
    replace (S (length pre)) with (length (pre ++ [c]))
      by (rewrite length_app; simpl; lia).
    rewrite (IH (pre ++ [c]) _ _ Hr). cbn [weighted_sum].
    rewrite len_cons. do 2 f_equal; lia.
Qed.

Lemma netherlands_checksum_reads_nine (ds tail : str) :
  length ds = 9%nat ->
  forallb isdigit_char ds = true ->
  NetherlandsNationalIDRecognizer._is_valid_checksum (ds ++ tail)
  = Ok (weighted_sum 9 ds mod 11 =? 0).
Proof.
  intros Hl Hd. unfold NetherlandsNationalIDRecognizer._is_valid_checksum,
    NetherlandsNationalIDRecognizer.range.
  pose proof (netherlands_loop_within ds [] tail 0 9 Hd) as L.
  cbn [app length] in L. rewrite Hl in L. rewrite L. reflexivity.
Qed.

(** X17. The Dutch national-ID validator reads the first nine characters
    only: on nine digits followed by anything it returns the weighted
    mod-11 test of the nine digits. *)
Theorem netherlands_checksum_ignores_the_rest (ds tail : str) :
  length ds = 9%nat ->
  forallb isdigit_char ds = true ->
  NetherlandsNationalIDRecognizer._is_valid_checksum (ds ++ tail)
  = Ok (weighted_sum 9 ds mod 11 =? 0).
Proof. apply netherlands_checksum_reads_nine. Qed.

Lemma netherlands_checksum_ignores_the_rest_witness :
  length (lit "000000000") = 9%nat
  /\ forallb isdigit_char (lit "000000000") = true
  /\ NetherlandsNationalIDRecognizer._is_valid_checksum
       (lit "000000000" ++ lit "zzz")
     = Ok (weighted_sum 9 (lit "000000000") mod 11 =? 0).
Proof.
  split; [reflexivity |]. split; [reflexivity |].
  apply netherlands_checksum_ignores_the_rest; reflexivity.
Defined.

Lemma netherlands_loop_returns (n : nat) (pre rest : str) (st st' : Z * Z) :
  for_each (NetherlandsNationalIDRecognizer.checksum_step (pre ++ rest)) st
    (map Z.of_nat (seq (length pre) n)) = Ok st' ->
  (n <= length rest)%nat /\ forallb isdigit_char (firstn n rest) = true.
Proof.
  revert pre rest st. induction n as [| n IH]; intros pre rest st H.
  - split; [lia | reflexivity].
  - cbn [seq map for_each] in H.
    unfold NetherlandsNationalIDRecognizer.checksum_step at 1 in H.
    destruct st as [total_sum multiplier].
    destruct rest as [| c r].
    + rewrite index_past_end in H
        by (rewrite app_nil_r; unfold len; lia).
      discriminate H.
    + rewrite index_middle in H. cbn [bind] in H.
      destruct (isdigit_char c) eqn:Hc.
      * rewrite (int_char_digit c Hc) in H. cbn [bind] in H.
        replace (pre ++ c :: r) with ((pre ++ [c]) ++ r) in H
          by (rewrite <- app_assoc; reflexivity).
        replace (S (length pre)) with (length (pre ++ [c])) in H
          by (rewrite length_app; simpl; lia).
        destruct (IH _ _ _ H) as [Hn Hd].
        split; [simpl; lia |]. cbn [firstn forallb]. rewrite Hc, Hd. reflexivity.
      * rewrite (int_char_non_digit c Hc) in H. discriminate H.
Qed.

(** X18. The Dutch national-ID validator returns a boolean exactly when
    the string has at least nine characters and the first nine are
    digits; on any other string it raises. *)
Theorem netherlands_checksum_returns_iff_nine_digits (national_id : str) :
  (exists b, NetherlandsNationalIDRecognizer._is_valid_checksum national_id = Ok b)
  <-> (9 <= length national_id)%nat
      /\ forallb isdigit_char (firstn 9 national_id) = true.
Proof.
  split.
  - intros [b H].
    unfold NetherlandsNationalIDRecognizer._is_valid_checksum,
      NetherlandsNationalIDRecognizer.range in H.
    destruct (for_each _ _ _) as [st |] eqn:L; [| discriminate H].
    exact (netherlands_loop_returns 9 [] national_id (0, 9) st L).
  - intros [Hl Hd]. exists (weighted_sum 9 (firstn 9 national_id) mod 11 =? 0).
    rewrite <- (firstn_skipn 9 national_id) at 1.
    apply netherlands_checksum_reads_nine; [| exact Hd].
    rewrite length_firstn. lia.
Qed.

Lemma weighted_sum_app (a b : str) (w : Z) :
  weighted_sum w (a ++ b) = weighted_sum w a + weighted_sum (w - len a) b.
Proof.
  revert w. induction a as [| c a IH]; intros w; cbn [app weighted_sum].
  - change (len (@nil ascii)) with 0. rewrite Z.sub_0_r. lia.
  - rewrite IH, len_cons. replace (w - 1 - len a) with (w - (len a + 1)) by lia.
    lia.
Qed.

(** X19. The Dutch weighted sum catches any single wrong digit: when nine
    digits are accepted, the same digits with one of them replaced by a
    different digit are rejected. *)
Theorem netherlands_detects_one_wrong_digit (pre suf : str) (c c' : ascii) :
  length (pre ++ c :: suf) = 9%nat ->
  forallb isdigit_char pre = true ->
  forallb isdigit_char suf = true ->
  isdigit_char c = true ->
  isdigit_char c' = true ->
  c <> c' ->
  NetherlandsNationalIDRecognizer._is_valid_checksum (pre ++ c :: suf) = Ok true ->
  NetherlandsNationalIDRecognizer._is_valid_checksum (pre ++ c' :: suf) = Ok false.
Proof.
  intros Hl Hp Hs Hc Hc' Hne.
  assert (Hd : forall x, isdigit_char x = true ->
                         forallb isdigit_char (pre ++ x :: suf) = true).
  { intros x Hx. rewrite forallb_app. cbn [forallb]. rewrite Hp, Hx, Hs.
    reflexivity. }
  assert (Hl' : length (pre ++ c' :: suf) = 9%nat)
    by (rewrite length_app in *; exact Hl).
  rewrite <- (app_nil_r (pre ++ c :: suf)), <- (app_nil_r (pre ++ c' :: suf)).
  rewrite (netherlands_checksum_reads_nine _ [] Hl (Hd c Hc)),
    (netherlands_checksum_reads_nine _ [] Hl' (Hd c' Hc')).
  rewrite !weighted_sum_app. cbn [weighted_sum].
  pose proof (digit_val_range c Hc). pose proof (digit_val_range c' Hc').
  assert (digit_val c <> digit_val c')
    by (intros Ev; apply Hne, digit_val_injective; assumption).
  assert (Hw : 1 <= 9 - len pre <= 9)
    by (unfold len; rewrite length_app in Hl; simpl in Hl; lia).
  set (w := 9 - len pre) in *.
  set (rest := weighted_sum 9 pre + weighted_sum (w - 1) suf).
  intros [= E]. f_equal. apply Z.eqb_eq in E. apply Z.eqb_neq. intros E'.
  apply Z.mod_divide in E; [| lia]. apply Z.mod_divide in E'; [| lia].
  destruct E as [m Hm]. destruct E' as [m' Hm'].
  assert (Hdiff : (digit_val c - digit_val c') * w = (m - m') * 11) by lia.
  assert (Hcases : w = 1 \/ w = 2 \/ w = 3 \/ w = 4 \/ w = 5 \/ w = 6 \/ w = 7
                   \/ w = 8 \/ w = 9) by lia.
  clearbody w. clear Hm Hm' rest.
  repeat (destruct Hcases as [-> | Hcases]); try subst w; lia.
Qed.

Lemma netherlands_detects_one_wrong_digit_witness :
  length (lit "1000" ++ "0"%char :: lit "0002") = 9%nat
  /\ forallb isdigit_char (lit "1000") = true
  /\ forallb isdigit_char (lit "0002") = true
  /\ isdigit_char "0" = true
  /\ isdigit_char "3" = true
  /\ "0"%char <> "3"%char
  /\ NetherlandsNationalIDRecognizer._is_valid_checksum
       (lit "1000" ++ "0"%char :: lit "0002") = Ok true
  /\ NetherlandsNationalIDRecognizer._is_valid_checksum
       (lit "1000" ++ "3"%char :: lit "0002") = Ok false.
Proof.
  assert (Hne : "0"%char <> "3"%char) by discriminate.
  assert (Hv : NetherlandsNationalIDRecognizer._is_valid_checksum
                 (lit "1000" ++ "0"%char :: lit "0002") = Ok true)
    by (vm_compute; reflexivity).
  repeat (split; [reflexivity || assumption |]).
  exact (netherlands_detects_one_wrong_digit (lit "1000") (lit "0002") "0" "3"
           eq_refl eq_refl eq_refl eq_refl eq_refl Hne Hv).
Defined.

(** X20. The Dutch weighted sum catches any swap of two neighbouring
    digits: when nine digits are accepted, the same digits with two
    different neighbours exchanged are rejected. *)
Theorem netherlands_detects_swapped_neighbours (pre suf : str) (a b : ascii) :
  length (pre ++ a :: b :: suf) = 9%nat ->
  forallb isdigit_char pre = true ->
  forallb isdigit_char suf = true ->
  isdigit_char a = true ->
  isdigit_char b = true ->
  a <> b ->
  NetherlandsNationalIDRecognizer._is_valid_checksum (pre ++ a :: b :: suf)
  = Ok true ->
  NetherlandsNationalIDRecognizer._is_valid_checksum (pre ++ b :: a :: suf)
  = Ok false.
Proof.
  intros Hl Hp Hs Ha Hb Hne.
  assert (Hd : forall x y, isdigit_char x = true -> isdigit_char y = true ->
                           forallb isdigit_char (pre ++ x :: y :: suf) = true).
  { intros x y Hx Hy. rewrite forallb_app. cbn [forallb].
    rewrite Hp, Hx, Hy, Hs. reflexivity. }
  assert (Hl' : length (pre ++ b :: a :: suf) = 9%nat)
    by (rewrite length_app in *; exact Hl).
  rewrite <- (app_nil_r (pre ++ a :: b :: suf)),
    <- (app_nil_r (pre ++ b :: a :: suf)).
  rewrite (netherlands_checksum_reads_nine _ [] Hl (Hd a b Ha Hb)),
    (netherlands_checksum_reads_nine _ [] Hl' (Hd b a Hb Ha)).
  rewrite !weighted_sum_app. cbn [weighted_sum].
  pose proof (digit_val_range a Ha). pose proof (digit_val_range b Hb).
  assert (digit_val a <> digit_val b)
    by (intros Ev; apply Hne, digit_val_injective; assumption).
  set (w := 9 - len pre).
  set (rest := weighted_sum 9 pre + weighted_sum (w - 1 - 1) suf).
  intros [= E]. f_equal. apply Z.eqb_eq in E. apply Z.eqb_neq. intros E'.
  apply Z.mod_divide in E; [| lia]. apply Z.mod_divide in E'; [| lia].
  destruct E as [m Hm]. destruct E' as [m' Hm'].
  assert (Hdiff : digit_val a - digit_val b = (m - m') * 11) by lia.
  lia.
Qed.

Lemma netherlands_detects_swapped_neighbours_witness :
  length (lit "1000000" ++ "0"%char :: "2"%char :: []) = 9%nat
  /\ forallb isdigit_char (lit "1000000") = true
  /\ forallb isdigit_char [] = true
  /\ isdigit_char "0" = true
  /\ isdigit_char "2" = true
  /\ "0"%char <> "2"%char
  /\ NetherlandsNationalIDRecognizer._is_valid_checksum
       (lit "1000000" ++ "0"%char :: "2"%char :: []) = Ok true
  /\ NetherlandsNationalIDRecognizer._is_valid_checksum
       (lit "1000000" ++ "2"%char :: "0"%char :: []) = Ok false.
Proof.
  assert (Hne : "0"%char <> "2"%char) by discriminate.
  assert (Hv : NetherlandsNationalIDRecognizer._is_valid_checksum
                 (lit "1000000" ++ "0"%char :: "2"%char :: []) = Ok true)
    by (vm_compute; reflexivity).
  repeat (split; [reflexivity || assumption |]).
  exact (netherlands_detects_swapped_neighbours (lit "1000000") [] "0" "2"
           eq_refl eq_refl eq_refl eq_refl eq_refl Hne Hv).
Defined.

(** ** Dutch VAT number *)

Lemma vat_loop (l : str) (i total_sum : Z) :
  forallb isdigit_char l = true ->
  for_each NetherlandsVATRecognizer.checksum_step (i, total_sum) l
  = Ok (i + len l, total_sum + weighted_sum (9 - i) l).
Proof.
  revert i total_sum. induction l as [| c l IH]; intros i t H.
  - simpl. do 2 f_equal; unfold len; simpl; lia.
  - simpl in H. apply andb_prop in H as [Hc Hl].
    cbn [for_each]. unfold NetherlandsVATRecognizer.checksum_step at 1.
    rewrite (int_char_digit c Hc). cbn [bind].
    rewrite (IH _ _ Hl), len_cons. cbn [weighted_sum].
    replace (9 - (i + 1)) with (9 - i - 1) by lia.
    do 2 f_equal; lia.
Qed.

Lemma vat_checksum_value (vat_number : str) :
  NetherlandsVATRecognizer.validate_checksum vat_number
  = Ok ((len vat_number =? 14)
        && match nth_error vat_number 9 with
           | Some c => eqb_char c "B"
           | None => false
           end
        && forallb isdigit_char (firstn 9 vat_number)
        && (weighted_sum 9 (firstn 9 vat_number) mod 11 =? 0)).
Proof.
  unfold NetherlandsVATRecognizer.validate_checksum.
  destruct (len vat_number =? 14) eqn:El; cbn [negb andb]; [| reflexivity].
  apply Z.eqb_eq in El.
  destruct (index_in_range vat_number 9 ltac:(lia)) as (c & -> & Hn).
  change (Z.to_nat 9) with 9%nat in Hn. rewrite Hn. cbn [bind].
  destruct (eqb_char c "B"); cbn [negb andb]; [| reflexivity].
  assert (Hs : slice_to vat_number 9 = firstn 9 vat_number).
  { unfold slice_to, clamp. rewrite El. reflexivity. }
  rewrite Hs.
  assert (Hlen : length (firstn 9 vat_number) = 9%nat)
    by (rewrite length_firstn; unfold len in El; lia).
  assert (Hi : isdigit (firstn 9 vat_number)
               = forallb isdigit_char (firstn 9 vat_number))
    by (destruct (firstn 9 vat_number); [discriminate Hlen | reflexivity]).
  rewrite Hi.
  destruct (forallb isdigit_char (firstn 9 vat_number)) eqn:Hd;
    cbn [negb andb]; [| reflexivity].
  rewrite (vat_loop _ 0 0 Hd). reflexivity.
Qed.


(** X22. What the Dutch VAT validator accepts, the Dutch national-ID
    validator accepts too: both test the same weighted sum of the first
    nine digits. *)
Theorem vat_accepted_is_national_id_accepted (vat_number : str) :
  NetherlandsVATRecognizer.validate_checksum vat_number = Ok true ->
  NetherlandsNationalIDRecognizer._is_valid_checksum vat_number = Ok true.
Proof.
  rewrite vat_checksum_value. intros [= H].
  apply andb_prop in H as [H Hw]. apply andb_prop in H as [H Hd].
  apply andb_prop in H as [Hl _]. apply Z.eqb_eq in Hl.
  rewrite <- (firstn_skipn 9 vat_number) at 1.
  rewrite netherlands_checksum_reads_nine, Hw; [reflexivity | | exact Hd].
  rewrite length_firstn. unfold len in Hl. lia.
Qed.

Lemma vat_accepted_is_national_id_accepted_witness :
  NetherlandsVATRecognizer.validate_checksum (lit "100000002B0100") = Ok true
  /\ NetherlandsNationalIDRecognizer._is_valid_checksum (lit "100000002B0100")
     = Ok true.
Proof.
  assert (H : NetherlandsVATRecognizer.validate_checksum (lit "100000002B0100")
              = Ok true) by (vm_compute; reflexivity).
  split; [exact H |].
  exact (vat_accepted_is_national_id_accepted (lit "100000002B0100") H).
Defined.



(** ** Swedish national ID *)

Lemma slice_from_last_ten {A : Type} (pre t : list A) :
  (10 <= length t)%nat ->
  slice_from (pre ++ t) (-10) = slice_from t (-10).
Proof.
  intros H. unfold slice_from, clamp, len.
  change (-10 <? 0) with true. cbv iota.
  rewrite length_app, skipn_app.
  replace (Z.to_nat (Z.max 0 (-10 + Z.of_nat (length pre + length t)))
           - length pre)%nat
    with (Z.to_nat (Z.max 0 (-10 + Z.of_nat (length t)))) by lia.
  rewrite skipn_all2 by lia. reflexivity.
Qed.

(** X24. The Swedish validator looks at the last ten characters only:
    whatever is put in front of a string of ten or more characters, digits
    or not, the result is the same. *)
Theorem sweden_checksum_reads_last_ten (pre t : str) :
  (10 <= length t)%nat ->
  SwedenNationalIDRecognizer._is_valid_checksum (pre ++ t)
  = SwedenNationalIDRecognizer._is_valid_checksum t.
Proof.
  intros H. unfold SwedenNationalIDRecognizer._is_valid_checksum.
  rewrite (slice_from_last_ten pre t H). reflexivity.
Qed.

Lemma sweden_checksum_reads_last_ten_witness :
  (10 <= length (lit "8112189876"))%nat
  /\ SwedenNationalIDRecognizer._is_valid_checksum (lit "xx" ++ lit "8112189876")
     = SwedenNationalIDRecognizer._is_valid_checksum (lit "8112189876").
Proof.
  assert (H : (10 <= length (lit "8112189876"))%nat) by (vm_compute; lia).
  split; [exact H |].
  exact (sweden_checksum_reads_last_ten (lit "xx") (lit "8112189876") H).
Defined.

Lemma delimiters_removed (t : str) :
  forallb (fun c => isdigit_char c || SwedenNationalIDRecognizer.dash_or_plus c) t
  = true ->
  forallb isdigit_char (re_sub_class SwedenNationalIDRecognizer.dash_or_plus t)
  = true.
Proof.
  unfold re_sub_class.
  induction t as [| c t IH]; cbn [forallb List.filter]; [reflexivity |].
  intros H. apply andb_prop in H as [Hc Ht].
  destruct (SwedenNationalIDRecognizer.dash_or_plus c) eqn:D; cbn [negb].
  - exact (IH Ht).
  - cbn [forallb]. rewrite orb_false_r in Hc. rewrite Hc. exact (IH Ht).
Qed.

(** X25. On a match written with digits, '-' and '+', as its patterns
    match, the Swedish recognizer does not raise: the match gets score
    0.0 when the Luhn test of its last ten digits fails, and otherwise
    1.0 with a context keyword in the text and 0.7 without. *)
Theorem sweden_analyze_scores_digit_match (rnd : Q -> Q) (text : str)
  (result : RecognizerResult) :
  forallb (fun c => isdigit_char c || SwedenNationalIDRecognizer.dash_or_plus c)
    (matched_text text result) = true ->
  SwedenNationalIDRecognizer.analyze_one rnd text result
  = Ok (set_score result
          (if luhn_sum
                (slice_from
                   (re_sub_class SwedenNationalIDRecognizer.dash_or_plus
                      (matched_text text result)) (-10)) mod 10 =? 0
           then if any (fun keyword => contains keyword (lower text))
                     SwedenNationalIDRecognizer.CONTEXT
                then 1 else rnd (7 # 10)
           else 0)).
Proof.
  intros H. unfold SwedenNationalIDRecognizer.analyze_one.
  rewrite (sweden_checksum_on_digits _ (delimiters_removed _ H)). cbn [bind].
  destruct (luhn_sum _ mod 10 =? 0); [destruct (any _ _) |]; reflexivity.
Qed.

Lemma sweden_analyze_scores_digit_match_witness :
  forallb (fun c => isdigit_char c || SwedenNationalIDRecognizer.dash_or_plus c)
    (matched_text swedish_text swedish_match) = true
  /\ SwedenNationalIDRecognizer.analyze_one exact swedish_text swedish_match
     = Ok (set_score swedish_match
             (if luhn_sum
                   (slice_from
                      (re_sub_class SwedenNationalIDRecognizer.dash_or_plus
                         (matched_text swedish_text swedish_match)) (-10))
                 mod 10 =? 0
              then if any (fun keyword => contains keyword (lower swedish_text))
                        SwedenNationalIDRecognizer.CONTEXT
                   then 1 else exact (7 # 10)
              else 0)).
Proof.
  split; [reflexivity |].
  apply sweden_analyze_scores_digit_match. reflexivity.
Defined.

(** ** IBAN: case, errors and wrong digits *)

Lemma numeric_of_lower_char (c : ascii) :
  EU_IBANRecognizer.numeric_of_char (lower_char c)
  = EU_IBANRecognizer.numeric_of_char c.
Proof. each_char c. Qed.

Lemma map_res_lower (l : str) :
  map_res EU_IBANRecognizer.numeric_of_char (lower l)
  = map_res EU_IBANRecognizer.numeric_of_char l.
Proof.
  unfold lower. induction l as [| c l IH]; cbn [map map_res]; [reflexivity |].
  rewrite numeric_of_lower_char, IH. reflexivity.
Qed.

Lemma slice_from_map {A B : Type} (f : A -> B) (l : list A) (i : Z) :
  slice_from (map f l) i = map f (slice_from l i).
Proof.
  unfold slice_from, len. rewrite length_map. apply skipn_map.
Qed.

Lemma slice_to_map {A B : Type} (f : A -> B) (l : list A) (i : Z) :
  slice_to (map f l) i = map f (slice_to l i).
Proof.
  unfold slice_to, len. rewrite length_map. apply firstn_map.
Qed.

(** X26. The IBAN validator does not depend on the case of the letters:
    an IBAN written in lower case gets the result of the same IBAN in
    upper case. *)
Theorem iban_checksum_ignores_case (iban : str) :
  EU_IBANRecognizer._is_valid_checksum (lower iban)
  = EU_IBANRecognizer._is_valid_checksum iban.
Proof.
  unfold EU_IBANRecognizer._is_valid_checksum.
  unfold lower at 1 2. rewrite slice_from_map, slice_to_map, <- map_app.
  fold (lower (slice_from iban 4 ++ slice_to iban 4)).
  rewrite map_res_lower. reflexivity.
Qed.

Lemma forallb_firstn {A : Type} (p : A -> bool) (n : nat) (l : list A) :
  forallb p l = true -> forallb p (firstn n l) = true.
Proof.
  revert n. induction l as [| x l IH]; intros [| n] H; cbn [firstn forallb] in *;
    try reflexivity.
  apply andb_prop in H as [-> H]. exact (IH n H).
Qed.

Lemma forallb_skipn {A : Type} (p : A -> bool) (n : nat) (l : list A) :
  forallb p l = true -> forallb p (skipn n l) = true.
Proof.
  revert n. induction l as [| x l IH]; intros [| n] H; cbn [skipn forallb] in *;
    try reflexivity; try exact H.
  apply andb_prop in H as [_ H]. exact (IH n H).
Qed.

Lemma rearranged_around (a b : str) :
  forallb alnum a = true -> forallb alnum b = true ->
  exists x y,
    forallb alnum x = true /\ forallb alnum y = true
    /\ forall c, slice_from (a ++ c :: b) 4 ++ slice_to (a ++ c :: b) 4
                 = x ++ c :: y.
Proof.
  intros Ha Hb.
  set (k := Z.to_nat (clamp (len a + 1 + len b) 4)).
  assert (Hk : forall c, Z.to_nat (clamp (len (a ++ c :: b)) 4) = k).
  { intros c. unfold k, len. rewrite length_app. cbn [length].
    f_equal. f_equal. lia. }
  destruct (k - length a)%nat as [| j] eqn:E.
  - exists (skipn k a), (b ++ firstn k a).
    split; [apply forallb_skipn, Ha |].
    split; [rewrite forallb_app, Hb; apply forallb_firstn, Ha |].
    intros c. unfold slice_from, slice_to. rewrite Hk.
    rewrite skipn_app, firstn_app, E. cbn [skipn firstn].
    rewrite app_nil_r, <- app_assoc. reflexivity.
  - exists (skipn j b ++ a), (firstn j b).
    split; [rewrite forallb_app, Ha, andb_true_r; apply forallb_skipn, Hb |].
    split; [apply forallb_firstn, Hb |].
    intros c. unfold slice_from, slice_to. rewrite Hk.
    rewrite skipn_app, firstn_app, E. cbn [skipn firstn].
    rewrite skipn_all2, firstn_all2 by lia.
    cbn [app]. rewrite <- app_assoc. reflexivity.
Qed.

Lemma numeric_of_alnum (c : ascii) :
  alnum c = true ->
  exists piece,
    EU_IBANRecognizer.numeric_of_char c = Ok piece
    /\ forallb isdigit_char piece = true.
Proof.
  each_char c; intros _; eexists; (split; [vm_compute; reflexivity | reflexivity]).
Qed.

Lemma numeric_of_digit (c : ascii) :
  isdigit_char c = true -> EU_IBANRecognizer.numeric_of_char c = Ok [c].
Proof. each_char c. Qed.

Lemma numeric_of_alnums (l : str) :
  forallb alnum l = true ->
  exists pieces,
    map_res EU_IBANRecognizer.numeric_of_char l = Ok pieces
    /\ forallb isdigit_char (concat pieces) = true.
Proof.
  induction l as [| c l IH]; cbn [forallb map_res]; intros H.
  - exists []. split; reflexivity.
  - apply andb_prop in H as [Hc Hl].
    destruct (numeric_of_alnum c Hc) as (p & -> & Hp).
    destruct (IH Hl) as (ps & -> & Hps).
    exists (p :: ps). split; [reflexivity |].
    cbn [concat]. rewrite forallb_app, Hp, Hps. reflexivity.
Qed.

Lemma map_res_app {A B : Type} (f : A -> res B) (l1 l2 : list A)
  (p1 p2 : list B) :
  map_res f l1 = Ok p1 -> map_res f l2 = Ok p2 ->
  map_res f (l1 ++ l2) = Ok (p1 ++ p2).
Proof.
  revert p1. induction l1 as [| x l1 IH]; intros p1 H1 H2; cbn [app map_res] in *.
  - injection H1 as <-. exact H2.
  - destruct (f x) as [y |]; [| discriminate H1]. cbn [bind] in *.
    destruct (map_res f l1) as [ys |]; [| discriminate H1]. cbn [bind] in *.
    injection H1 as <-. rewrite (IH ys eq_refl H2). reflexivity.
Qed.

Lemma iban_checksum_around_digit (x y : str) :
  forallb alnum x = true -> forallb alnum y = true ->
  exists X Y,
    forall c, isdigit_char c = true ->
      (let* pieces := map_res EU_IBANRecognizer.numeric_of_char (x ++ c :: y) in
       except_ValueError (let* n := int (concat pieces) in Ok (n mod 97 =? 1)) false)
      = Ok (decimal_value (X ++ c :: Y) mod 97 =? 1).
Proof.
  intros Hx Hy.
  destruct (numeric_of_alnums x Hx) as (px & Ex & Dx).
  destruct (numeric_of_alnums y Hy) as (py & Ey & Dy).
  exists (concat px), (concat py). intros c Hc.
  assert (Ec : map_res EU_IBANRecognizer.numeric_of_char (c :: y) = Ok ([c] :: py))
    by (cbn [map_res]; rewrite (numeric_of_digit c Hc), Ey; reflexivity).
  rewrite (map_res_app _ _ _ _ _ Ex Ec). cbn [bind].
  rewrite concat_app. cbn [concat app].
  rewrite int_of_digits.
  - reflexivity.
  - destruct (concat px); discriminate.
  - rewrite forallb_app. cbn [forallb]. rewrite Dx, Hc, Dy. reflexivity.
Qed.

(** X27. The IBAN test catches any single wrong digit: when an IBAN made
    of letters and digits is accepted, the same IBAN with one digit
    replaced by a different digit is rejected. *)
Theorem iban_detects_one_wrong_digit (a b : str) (c c' : ascii) :
  forallb alnum a = true ->
  forallb alnum b = true ->
  isdigit_char c = true ->
  isdigit_char c' = true ->
  c <> c' ->
  EU_IBANRecognizer._is_valid_checksum (a ++ c :: b) = Ok true ->
  EU_IBANRecognizer._is_valid_checksum (a ++ c' :: b) = Ok false.
Proof.
  intros Ha Hb Hc Hc' Hne.
  unfold EU_IBANRecognizer._is_valid_checksum.
  destruct (rearranged_around a b Ha Hb) as (x & y & Hx & Hy & Hr).
  rewrite !Hr.
  destruct (iban_checksum_around_digit x y Hx Hy) as (X & Y & HXY).
  rewrite (HXY c Hc), (HXY c' Hc').
  intros [= E]. f_equal. apply Z.eqb_eq in E. apply Z.eqb_neq. intros E'.
  apply (same_residue_one_digit_apart 97 68 7 X Y c c'); try assumption; try lia.
Qed.

Lemma iban_detects_one_wrong_digit_witness :
  forallb alnum (lit "GB8") = true
  /\ forallb alnum (lit "WEST12345698765432") = true
  /\ isdigit_char "2" = true
  /\ isdigit_char "3" = true
  /\ "2"%char <> "3"%char
  /\ EU_IBANRecognizer._is_valid_checksum
       (lit "GB8" ++ "2"%char :: lit "WEST12345698765432") = Ok true
  /\ EU_IBANRecognizer._is_valid_checksum
       (lit "GB8" ++ "3"%char :: lit "WEST12345698765432") = Ok false.
Proof.
  assert (Hne : "2"%char <> "3"%char) by discriminate.
  assert (Hv : EU_IBANRecognizer._is_valid_checksum
                 (lit "GB8" ++ "2"%char :: lit "WEST12345698765432") = Ok true)
    by (vm_compute; reflexivity).
  repeat (split; [reflexivity || assumption |]).
  exact (iban_detects_one_wrong_digit (lit "GB8") (lit "WEST12345698765432")
           "2" "3" eq_refl eq_refl eq_refl eq_refl Hne Hv).
Defined.

(** ** Italian fiscal code: [analyze] never raises *)

Lemma italy_values_defined (c : ascii) :
  ItalyFiscalCodeRecognizer.not_upper_alnum c = false ->
  (exists v, ItalyFiscalCodeRecognizer.getitem
               ItalyFiscalCodeRecognizer.ODD_VALUES c = Ok v)
  /\ (exists v, ItalyFiscalCodeRecognizer.getitem
                  ItalyFiscalCodeRecognizer.EVEN_VALUES c = Ok v).
Proof.
  each_char c; intros _; split; eexists; vm_compute; reflexivity.
Qed.

Lemma italy_loop_returns (l : str) (st : Z * Z) :
  forallb (fun c => negb (ItalyFiscalCodeRecognizer.not_upper_alnum c)) l = true ->
  exists st', for_each ItalyFiscalCodeRecognizer.checksum_step st l = Ok st'.
Proof.
  revert st. induction l as [| c l IH]; intros [i s] H; cbn [for_each forallb] in *.
  - eexists. reflexivity.
  - apply andb_prop in H as [Hc Hl]. apply negb_true_iff in Hc.
    destruct (italy_values_defined c Hc) as [[v Hv] [v' Hv']].
    unfold ItalyFiscalCodeRecognizer.checksum_step at 1.
    destruct (i mod 2 =? 0); [rewrite Hv | rewrite Hv']; cbn [bind]; apply IH, Hl.
Qed.

Lemma italy_checksum_returns (code : str) :
  forallb (fun c => negb (ItalyFiscalCodeRecognizer.not_upper_alnum c)) code = true ->
  exists b, ItalyFiscalCodeRecognizer._validate_checksum code = Ok b.
Proof.
  intros H. unfold ItalyFiscalCodeRecognizer._validate_checksum.
  destruct (len code =? 16) eqn:El; cbn [negb]; [| eexists; reflexivity].
  assert (Hne : code <> []) by (intros ->; discriminate El).
  destruct (exists_last Hne) as (init & last & ->).
  rewrite slice_to_all_but_last, index_last.
  rewrite forallb_app in H. apply andb_prop in H as [Hi _].
  destruct (italy_loop_returns init (0, 0) Hi) as [st ->].
  cbn [bind]. eexists. reflexivity.
Qed.

Lemma stripped_is_upper_alnum (t : str) :
  forallb (fun c => negb (ItalyFiscalCodeRecognizer.not_upper_alnum c))
    (re_sub_class ItalyFiscalCodeRecognizer.not_upper_alnum t) = true.
Proof.
  unfold re_sub_class.
  induction t as [| c t IH]; cbn [List.filter forallb]; [reflexivity |].
  destruct (negb (ItalyFiscalCodeRecognizer.not_upper_alnum c)) eqn:E;
    cbn [forallb]; [rewrite E |]; exact IH.
Qed.

(** X28. The Italian recognizer never raises, whatever the text and the
    matches: it returns one Result per pattern match, in order, with the
    entity type and the position of the match. *)
Theorem italy_analyze_never_raises (rnd : Q -> Q) (text : str)
  (results : list RecognizerResult) :
  exists out,
    ItalyFiscalCodeRecognizer.analyze rnd text results = Ok out
    /\ Forall2 (fun m r => entity_type r = entity_type m /\ span r = span m)
         results out.
Proof.
  unfold ItalyFiscalCodeRecognizer.analyze.
  induction results as [| m ms (out & E & F)]; cbn [map_res].
  - exists []. split; [reflexivity | constructor].
  - unfold ItalyFiscalCodeRecognizer.analyze_one at 1.
    destruct (italy_checksum_returns _ (stripped_is_upper_alnum (entity_type m)))
      as [b ->].
    rewrite E. cbn [bind]. eexists. split; [reflexivity |].
    constructor; [| exact F].
    destruct (ItalyFiscalCodeRecognizer.context_found text); split; reflexivity.
Qed.

(** ** Australian bank account: what is returned *)

Lemma Qltb_of_lt (a b : Q) : (a < b)%Q -> Qltb a b = true.
Proof.
  intros H. unfold Qltb. apply negb_true_iff.
  destruct (Qle_bool b a) eqn:E; [| reflexivity].
  apply Qle_bool_iff in E. exfalso. exact (Qlt_not_le _ _ H E).
Qed.

Lemma Qltb_of_le (a b : Q) : (b <= a)%Q -> Qltb a b = false.
Proof.
  intros H. unfold Qltb. apply negb_false_iff. apply Qle_bool_iff, H.
Qed.

Lemma eqb_str_refl (t : str) : eqb_str t t = true.
Proof.
  induction t as [| c t IH]; cbn [eqb_str]; [reflexivity |].
  unfold eqb_char. rewrite Ascii.eqb_refl. exact IH.
Qed.

Lemma rescore_keeps_match (rnd : Q -> Q) (text : str) (r : RecognizerResult) :
  exists q,
    AustraliaBankAccountRecognizer.negative_context_stage rnd text
      (AustraliaBankAccountRecognizer.context_stage rnd text r)
    = set_score r q.
Proof.
  unfold AustraliaBankAccountRecognizer.negative_context_stage,
    AustraliaBankAccountRecognizer.context_stage.
  destruct (negb _), (any _ AustraliaBankAccountRecognizer.NEGATIVE_CONTEXT);
    try (eexists; reflexivity).
  exists (score r). destruct r; reflexivity.
Qed.

(** X29. A match of the Australian recognizer that holds a BSB followed by
    an account number is always returned, with score 1.0 for a known BSB
    and 0.5 otherwise: its base score, a missing context word and a
    negative context word have no effect on it. *)
Theorem bsb_account_match_is_always_returned (rnd : Q -> Q) (text : str)
  (results : list RecognizerResult) (r : RecognizerResult) (bsb_number : str) :
  rounding rnd ->
  (rnd (3 # 10) < rnd (5 # 10))%Q ->
  In r results ->
  entity_type r = lit "AUSTRALIA_BANK_ACCOUNT" ->
  AustraliaBankAccountRecognizer.re_search_bsb_account (matched_text text r)
  = Some bsb_number ->
  In (set_score r
        (if bool_decide
              (bsb_number ∈ AustraliaBankAccountRecognizer.KNOWN_BSB_NUMBERS)
         then 1 else rnd (5 # 10)))
    (AustraliaBankAccountRecognizer.analyze rnd text results).
Proof.
  intros R Hlt Hin He Hs.
  rewrite australia_analyze_filters. apply filter_In. split.
  - apply in_map_iff. exists r. split; [| exact Hin].
    unfold AustraliaBankAccountRecognizer.rescore.
    destruct (rescore_keeps_match rnd text r) as [q ->].
    unfold AustraliaBankAccountRecognizer.bsb_stage.
    change (entity_type (set_score r q)) with (entity_type r).
    change (matched_text text (set_score r q)) with (matched_text text r).
    rewrite He, eqb_str_refl, Hs.
    unfold AustraliaBankAccountRecognizer._match_known_bsb. reflexivity.
  - cbn [score set_score]. apply Qltb_of_lt.
    destruct (bool_decide _); [| exact Hlt].
    apply Qlt_le_trans with (rnd (5 # 10)); [exact Hlt |].
    rewrite <- (rnd_1 rnd R). apply (rnd_mono rnd R). lra.
Qed.

Lemma bsb_account_match_is_always_returned_witness :
  rounding exact
  /\ (exact (3 # 10) < exact (5 # 10))%Q
  /\ In (mkResult (lit "AUSTRALIA_BANK_ACCOUNT") 13 28 (85 # 100)) bank_matches
  /\ entity_type (mkResult (lit "AUSTRALIA_BANK_ACCOUNT") 13 28 (85 # 100))
     = lit "AUSTRALIA_BANK_ACCOUNT"
  /\ AustraliaBankAccountRecognizer.re_search_bsb_account
       (matched_text bank_text
          (mkResult (lit "AUSTRALIA_BANK_ACCOUNT") 13 28 (85 # 100)))
     = Some (lit "012-785")
  /\ In (set_score (mkResult (lit "AUSTRALIA_BANK_ACCOUNT") 13 28 (85 # 100))
           (if bool_decide
                 (lit "012-785" ∈ AustraliaBankAccountRecognizer.KNOWN_BSB_NUMBERS)
            then 1 else exact (5 # 10)))
       (AustraliaBankAccountRecognizer.analyze exact bank_text bank_matches).
Proof.
  assert (Hlt : (exact (3 # 10) < exact (5 # 10))%Q) by reflexivity.
  assert (Hin : In (mkResult (lit "AUSTRALIA_BANK_ACCOUNT") 13 28 (85 # 100))
                  bank_matches) by (left; reflexivity).
  assert (Hs : AustraliaBankAccountRecognizer.re_search_bsb_account
                 (matched_text bank_text
                    (mkResult (lit "AUSTRALIA_BANK_ACCOUNT") 13 28 (85 # 100)))
               = Some (lit "012-785")) by (vm_compute; reflexivity).
  split; [exact exact_rounding |]. split; [exact Hlt |]. split; [exact Hin |].
  split; [reflexivity |]. split; [exact Hs |].
  exact (bsb_account_match_is_always_returned exact bank_text bank_matches _ _
           exact_rounding Hlt Hin eq_refl Hs).
Defined.

Lemma rescore_without_context (rnd : Q -> Q) (text : str) (r : RecognizerResult) :
  rounding rnd ->
  (rnd (rnd (3 # 10)) == rnd (3 # 10))%Q ->
  any (fun context_word => contains context_word (lower text))
    AustraliaBankAccountRecognizer.CONTEXT = false ->
  (score r <= 1)%Q ->
  AustraliaBankAccountRecognizer.re_search_bsb_account (matched_text text r) = None ->
  (score (AustraliaBankAccountRecognizer.rescore rnd text r) <= rnd (3 # 10))%Q.
Proof.
  intros R Hi Hc Hs Hb.
  assert (H3 : (0 <= rnd (3 # 10))%Q)
    by (rewrite <- (rnd_0 rnd R); apply (rnd_mono rnd R); lra).
  assert (H15 : in_unit (rnd (15 # 100)))
    by (apply (literal_in_unit rnd _ R); lra).
  assert (H1 : (score (AustraliaBankAccountRecognizer.context_stage rnd text r)
                <= rnd (3 # 10))%Q).
  { unfold AustraliaBankAccountRecognizer.context_stage. rewrite Hc.
    cbn [negb score set_score]. unfold fmul.
    apply Qle_trans with (rnd (rnd (3 # 10))); [| rewrite Hi; apply Qle_refl].
    apply (rnd_mono rnd R). nra. }
  assert (H2 : (score (AustraliaBankAccountRecognizer.negative_context_stage rnd text
                         (AustraliaBankAccountRecognizer.context_stage rnd text r))
                <= rnd (3 # 10))%Q).
  { unfold AustraliaBankAccountRecognizer.negative_context_stage.
    destruct (any _ AustraliaBankAccountRecognizer.NEGATIVE_CONTEXT); [| exact H1].
    cbn [score set_score]. unfold fmul.
    apply Qle_trans with (rnd (rnd (3 # 10))); [| rewrite Hi; apply Qle_refl].
    apply (rnd_mono rnd R).
    destruct H15 as [Ha Hb'].
    set (s := score (AustraliaBankAccountRecognizer.context_stage rnd text r)) in *.
    destruct (Qlt_le_dec s 0); nra. }
  unfold AustraliaBankAccountRecognizer.rescore,
    AustraliaBankAccountRecognizer.bsb_stage.
  destruct (rescore_keeps_match rnd text r) as [q Hq]. rewrite Hq in *.
  destruct (eqb_str _ _); [| exact H2].
  change (matched_text text (set_score r q)) with (matched_text text r).
  rewrite Hb. exact H2.
Qed.

(** X30. Without one of its context words in the text, the Australian
    recognizer returns nothing but BSB-with-account matches: when no
    match holds a BSB followed by an account number and no base score
    exceeds 1.0, it returns the empty list. *)
Theorem no_context_no_plain_match (rnd : Q -> Q) (text : str)
  (results : list RecognizerResult) :
  rounding rnd ->
  (rnd (rnd (3 # 10)) == rnd (3 # 10))%Q ->
  any (fun context_word => contains context_word (lower text))
    AustraliaBankAccountRecognizer.CONTEXT = false ->
  Forall (fun r => (score r <= 1)%Q
                   /\ AustraliaBankAccountRecognizer.re_search_bsb_account
                        (matched_text text r) = None)
    results ->
  AustraliaBankAccountRecognizer.analyze rnd text results = [].
Proof.
  intros R Hi Hc H. rewrite australia_analyze_filters.
  induction H as [| r l [Hs Hb] _ IH]; cbn [map List.filter]; [reflexivity |].
  rewrite (Qltb_of_le _ _ (rescore_without_context rnd text r R Hi Hc Hs Hb)).
  exact IH.
Qed.

Lemma no_context_no_plain_match_witness :
  rounding exact
  /\ (exact (exact (3 # 10)) == exact (3 # 10))%Q
  /\ any (fun context_word => contains context_word (lower no_context_text))
       AustraliaBankAccountRecognizer.CONTEXT = false
  /\ Forall (fun r => (score r <= 1)%Q
                      /\ AustraliaBankAccountRecognizer.re_search_bsb_account
                           (matched_text no_context_text r) = None)
       no_context_matches
  /\ AustraliaBankAccountRecognizer.analyze exact no_context_text
       no_context_matches = [].
Proof.
  assert (Hi : (exact (exact (3 # 10)) == exact (3 # 10))%Q) by reflexivity.
  assert (Hc : any (fun context_word =>
                      contains context_word (lower no_context_text))
                 AustraliaBankAccountRecognizer.CONTEXT = false)
    by (vm_compute; reflexivity).
  assert (H : Forall (fun r => (score r <= 1)%Q
                               /\ AustraliaBankAccountRecognizer.re_search_bsb_account
                                    (matched_text no_context_text r) = None)
                no_context_matches).
  { repeat constructor; cbn [score]; try lra; vm_compute; reflexivity. }
  split; [exact exact_rounding |]. split; [exact Hi |]. split; [exact Hc |].
  split; [exact H |].
  exact (no_context_no_plain_match exact no_context_text no_context_matches
           exact_rounding Hi Hc H).
Defined.
